(** * EMI calculator: the payment formula and the calculation history

    A shallow embedding of [frontend/src/lib/emi.ts] ([calculateEMI]), of
    [frontend/src/hooks/useEmiCalculationHistory.ts] (the history hook) and
    of the handlers of [frontend/src/components/EmiCalculator.tsx], with the
    properties of the specification stated over them.

    JavaScript numbers are IEEE 754 binary64 values.  The calculator is
    translated over an interface of the arithmetic it uses, and that
    interface is read as [binary64]: Rocq's primitive floats, which are the
    doubles the browser computes with.  [Math.pow], which ECMAScript leaves
    implementation-approximated, is a parameter of the instance. *)

From Stdlib Require Import Bool List String Ascii ZArith Lia.
From Stdlib Require Import Floats.
Import ListNotations.

Set Implicit Arguments.

(** ** Results of a call: a returned value or a thrown exception *)

Variant JSError : Type :=
  | Error (message : string)      (* [throw new Error(message)] *)
  | TypeError                     (* property read on [null] or [undefined] *)
  | SyntaxError                   (* [JSON.parse] on malformed text *)
  | DOMException.                 (* [localStorage] access refused *)

Variant outcome (A : Type) : Type :=
  | Returned (a : A)
  | Thrown (e : JSError).
Arguments Thrown {A} e.

Definition throws {A : Type} (o : outcome A) : bool :=
  match o with
  | Returned _ => false
  | Thrown _ => true
  end.

(** ** The arithmetic of JavaScript numbers, as an interface *)

Declare Scope js_scope.
Delimit Scope js_scope with js.

Class JSNumber (num : Type) : Type := {
  lit : Z -> num;                       (* integer literals: 0, 1, 12, 100 *)
  num_add : num -> num -> num;
  num_sub : num -> num -> num;
  num_mul : num -> num -> num;
  num_div : num -> num -> num;
  Math_pow : num -> num -> num;
  num_le : num -> num -> bool;          (* [x <= y] *)
  num_lt : num -> num -> bool;          (* [x < y] *)
  num_eq : num -> num -> bool           (* [x === y] *)
}.

Infix "+" := num_add : js_scope.
Infix "-" := num_sub : js_scope.
Infix "*" := num_mul : js_scope.
Infix "/" := num_div : js_scope.
Infix "<=?" := num_le (at level 70) : js_scope.
Infix "<?" := num_lt (at level 70) : js_scope.
Infix "===" := num_eq (at level 70) : js_scope.

(** The order of a number system is coherent when [x < y] excludes [y <= x]
    and [x <= y] excludes [y < x].  Doubles are coherent; neither
    comparison holds when an operand is NaN. *)
Class JSNumberOrder (num : Type) `{JSNumber num} : Prop := {
  lt_excludes_le : forall x y : num, (x <? y)%js = true -> (y <=? x)%js = false;
  le_excludes_lt : forall x y : num, (x <=? y)%js = true -> (y <? x)%js = false
}.

(** *** Doubles *)

Definition float_of_Z (z : Z) : float :=
  match z with
  | Z0 => PrimFloat.zero
  | Zpos _ => PrimFloat.of_uint63 (Uint63.of_Z z)
  | Zneg p => PrimFloat.opp (PrimFloat.of_uint63 (Uint63.of_Z (Zpos p)))
  end.

(** [pow] stands for the engine's [Math.pow]. *)
Definition binary64 (pow : float -> float -> float) : JSNumber float := {|
  lit := float_of_Z;
  num_add := PrimFloat.add;
  num_sub := PrimFloat.sub;
  num_mul := PrimFloat.mul;
  num_div := PrimFloat.div;
  Math_pow := pow;
  num_le := PrimFloat.leb;
  num_lt := PrimFloat.ltb;
  num_eq := PrimFloat.eqb
|}.

(** A [Math.pow] for exponents that are natural numbers, by repeated
    multiplication; every other exponent gives NaN.  ECMAScript does not fix
    the bits [Math.pow] returns, so no property below is stated of this
    function: it only serves to run the calculator on concrete inputs. *)
Definition nat_of_float (y : float) : option nat :=
  match Prim2SF y with
  | S754_zero _ => Some O
  | S754_finite false m e =>
      if (0 <=? e)%Z then Some (Z.to_nat (Zpos m * 2 ^ e))
      else if (Zpos m mod 2 ^ (- e) =? 0)%Z
           then Some (Z.to_nat (Zpos m / 2 ^ (- e)))
           else None
  | _ => None
  end.

Fixpoint float_pow_nat (x : float) (k : nat) : float :=
  match k with
  | O => PrimFloat.one
  | S k' => PrimFloat.mul x (float_pow_nat x k')
  end.

Definition float_pow (x y : float) : float :=
  match nat_of_float y with
  | Some k => float_pow_nat x k
  | None => PrimFloat.nan
  end.

(** The sign bit of a double that is a number; NaN has none. *)
Definition number_sign (f : spec_float) : option bool :=
  match f with
  | S754_zero s | S754_infinity s | S754_finite s _ _ => Some s
  | S754_nan => None
  end.

(** ** [lib/emi.ts] *)

Module Emi.

Record EMIResult (num : Type) : Type := {
  monthlyEMI : num;
  totalPayment : num;
  totalInterest : num;
  principal : num;
  tenureMonths : num
}.

Definition invalid_input_message : string :=
  "Invalid input: principal and tenure must be positive, interest rate must be non-negative".

Section WithNumbers.
Context {num : Type} (N : JSNumber num).
Local Open Scope js_scope.

Definition calculateEMI (principal annualInterestRate tenureMonths : num)
  : outcome (EMIResult num) :=
  if (principal <=? lit 0) || (tenureMonths <=? lit 0)
     || (annualInterestRate <? lit 0)
  then Thrown (Error invalid_input_message)
  else
    let monthlyEMI :=
      if annualInterestRate === lit 0 then principal / tenureMonths
      else
        let monthlyRate := annualInterestRate / lit 12 / lit 100 in
        let numerator :=
          principal * monthlyRate
          * Math_pow (lit 1 + monthlyRate) tenureMonths in
        let denominator :=
          Math_pow (lit 1 + monthlyRate) tenureMonths - lit 1 in
        numerator / denominator in
    let totalPayment := monthlyEMI * tenureMonths in
    let totalInterest := totalPayment - principal in
    Returned {| monthlyEMI := monthlyEMI;
                totalPayment := totalPayment;
                totalInterest := totalInterest;
                principal := principal;
                tenureMonths := tenureMonths |}.
End WithNumbers.

(** The three preconditions of the documentation comment, as the fields
    they constrain. *)
Variant Field : Type := Principal | Rate | Tenure.

Definition violated {num : Type} (N : JSNumber num) (f : Field)
    (principal annualInterestRate tenureMonths : num) : bool :=
  match f with
  | Principal => (principal <=? lit 0)%js
  | Rate => (annualInterestRate <? lit 0)%js
  | Tenure => (tenureMonths <=? lit 0)%js
  end.

End Emi.

(** ** [components/EmiCalculator.tsx]: what the form lets through *)

Module Form.

Variant TenureUnit : Type := years | months.

(** The tenure check of [validateInputs], on the text of the field and on
    [parseFloat] of it: [!tenure || isNaN(tenureNum) || tenureNum <= 0]. *)
Definition tenure_rejected (tenure : string) (tenureNum : float) : bool :=
  String.eqb tenure "" || PrimFloat.is_nan tenureNum
  || PrimFloat.leb tenureNum PrimFloat.zero.

(** [tenureUnit === 'years' ? tenureNum * 12 : tenureNum] *)
Definition tenureInMonths (tenureUnit : TenureUnit) (tenureNum : float)
  : float :=
  match tenureUnit with
  | years => PrimFloat.mul tenureNum (float_of_Z 12)
  | months => tenureNum
  end.

End Form.

(** ** [hooks/useEmiCalculationHistory.ts] *)

Module History.

Section WithNumbers.
Context {num : Type}.

#[local] Unset Elimination Schemes.

(** Values at run time.  The hook declares its state as
    [HistoryEntry[]], but what it loads is whatever [JSON.parse] returned,
    so the log holds values, not records.  [JFunction] stands for a
    built-in method read off a prototype. *)
Inductive JSValue : Type :=
  | JUndefined
  | JNull
  | JBool (b : bool)
  | JNumber (x : num)
  | JString (s : string)
  | JArray (elements : list JSValue)
  | JObject (properties : list (string * JSValue))
  | JFunction.
#[local] Set Elimination Schemes.

Definition own_property (properties : list (string * JSValue))
    (key : string) : JSValue :=
  match find (fun kv => String.eqb (fst kv) key) properties with
  | Some kv => snd kv
  | None => JUndefined
  end.

(** [v.key], for the two property names the hook reads ([entries] and
    [id]): a [TypeError] on [null] and [undefined], the own property of an
    object, the [entries] method of an array, and [undefined] on
    everything else. *)
Definition get_member (v : JSValue) (key : string) : outcome JSValue :=
  match v with
  | JUndefined | JNull => Thrown TypeError
  | JObject properties => Returned (own_property properties key)
  | JArray _ =>
      Returned (if String.eqb key "entries" then JFunction else JUndefined)
  | _ => Returned JUndefined
  end.

Definition Array_isArray (v : JSValue) : bool :=
  match v with
  | JArray _ => true
  | _ => false
  end.

(** The array a value is, as the list of its elements. *)
Definition array_elements (v : JSValue) : list JSValue :=
  match v with
  | JArray elements => elements
  | _ => []
  end.

(** [v === id] for a string [id]. *)
Definition strict_equal_string (v : JSValue) (id : string) : bool :=
  match v with
  | JString s => String.eqb s id
  | _ => false
  end.

Definition STORAGE_KEY : string := "emi-calculation-history-v1".
Definition MAX_HISTORY_ITEMS : nat := 50.

(** [Omit<HistoryEntry, 'id' | 'timestamp'>]: the argument of
    [addEntry]. *)
Record EntryFields : Type := {
  principal : num;
  annualInterestRate : num;
  tenureMonths : num;
  monthlyEMI : num;
  totalInterest : num;
  totalPayment : num
}.

(** What [addEntry] reads from its surroundings: the text of the first
    [Date.now()] as the template literal prints it, the text
    [Math.random().toString(36)], and the second [Date.now()]. *)
Record Surroundings : Type := {
  now_text : string;
  random_text : string;
  now : num
}.

(** [String.prototype.substr(start, length)] on in-range arguments. *)
Definition substr (start length : nat) (s : string) : string :=
  substring start length s.

Definition new_id (w : Surroundings) : string :=
  now_text w ++ "-" ++ substr 2 9 (random_text w).

(** [{ ...entry, id: ..., timestamp: Date.now() }] *)
Definition newEntry (entry : EntryFields) (w : Surroundings) : JSValue :=
  JObject [ ("principal", JNumber (principal entry));
            ("annualInterestRate", JNumber (annualInterestRate entry));
            ("tenureMonths", JNumber (tenureMonths entry));
            ("monthlyEMI", JNumber (monthlyEMI entry));
            ("totalInterest", JNumber (totalInterest entry));
            ("totalPayment", JNumber (totalPayment entry));
            ("id", JString (new_id w));
            ("timestamp", JNumber (now w)) ]%string.

(** [Array.prototype.slice(0, n)] *)
Definition slice0 (n : nat) (l : list JSValue) : list JSValue := firstn n l.

(** [addEntry]: the updater given to [setHistory], applied to the log,
    and the value of the call, which has no [return]. *)
Definition addEntry (entry : EntryFields) (w : Surroundings)
    (prev : list JSValue) : JSValue * list JSValue :=
  let updated := newEntry entry w :: prev in
  (JUndefined, slice0 MAX_HISTORY_ITEMS updated).

Definition clearHistory (prev : list JSValue) : list JSValue := [].

(** [history.find((entry) => entry.id === id)] *)
Fixpoint getEntry (id : string) (history : list JSValue) : outcome JSValue :=
  match history with
  | [] => Returned JUndefined
  | entry :: rest =>
      match get_member entry "id" with
      | Thrown e => Thrown e
      | Returned v =>
          if strict_equal_string v id then Returned entry
          else getEntry id rest
      end
  end.

(** The effect that runs on mount.  [getItem] is the result of
    [localStorage.getItem(STORAGE_KEY)]; the [catch] leaves the state as
    it was. *)
Section Load.
Variable JSON_parse : string -> outcome JSValue.

Definition loadEffect (getItem : outcome (option string))
    (history : list JSValue) : list JSValue :=
  match getItem with
  | Returned (Some stored) =>
      if String.eqb stored "" then history
      else
        match JSON_parse stored with
        | Returned parsed =>
            match get_member parsed "entries" with
            | Returned entries =>
                if Array_isArray entries then array_elements entries
                else history
            | Thrown _ => history
            end
        | Thrown _ => history
        end
  | Returned None => history
  | Thrown _ => history
  end.

(** [useState<HistoryEntry[]>([])] followed by the mount effect. *)
Definition initialize (getItem : outcome (option string)) : list JSValue :=
  loadEffect getItem [].
End Load.

(** The calls the hook hands out, and their effect on the log. *)
Variant operation : Type :=
  | AddEntry (entry : EntryFields) (w : Surroundings)
  | ClearHistory
  | GetEntry (id : string).

Definition step (history : list JSValue) (o : operation) : list JSValue :=
  match o with
  | AddEntry entry w => snd (addEntry entry w history)
  | ClearHistory => clearHistory history
  | GetEntry _ => history
  end.

Definition run (history : list JSValue) (ops : list operation)
  : list JSValue :=
  fold_left step ops history.

(** The entry a call of [addEntry] builds. *)
Definition created (c : EntryFields * Surroundings) : JSValue :=
  newEntry (fst c) (snd c).

(** A run of [addEntry] calls, oldest call first. *)
Definition addAll (history : list JSValue)
    (calls : list (EntryFields * Surroundings)) : list JSValue :=
  fold_left (fun h c => snd (addEntry (fst c) (snd c) h)) calls history.

Definition is_number (v : JSValue) : bool :=
  match v with JNumber _ => true | _ => false end.

Definition is_string (v : JSValue) : bool :=
  match v with JString _ => true | _ => false end.

(** The persisted layout of section 6 of the specification: an entry is
    an object with a string [id] and numbers in the seven other fields.
    The hook has no such check; this is the specification's notion of a
    well-formed entry, to compare the load against. *)
Definition spec_well_formed_entry (v : JSValue) : bool :=
  match v with
  | JObject properties =>
      is_string (own_property properties "id")
      && forallb (fun key => is_number (own_property properties key))
           [ "timestamp"; "principal"; "annualInterestRate";
             "tenureMonths"; "monthlyEMI"; "totalInterest";
             "totalPayment" ]%string
  | _ => false
  end.

Definition spec_well_formed_log (elements : list JSValue) : bool :=
  forallb spec_well_formed_entry elements.
End WithNumbers.

Arguments JSValue num : clear implicits.
Arguments EntryFields num : clear implicits.
Arguments Surroundings num : clear implicits.
Arguments operation num : clear implicits.

End History.

(** The separator of the two parts of an identifier. *)
Definition dash : ascii := "-"%char.

(** ** [hooks/useEmiCalculationHistory.ts]: the log and its stored copy *)

Module Persistence.
Import History.

Section WithBuiltins.
Context {num : Type}.
Variable JSON_parse : string -> outcome (JSValue num).
Variable JSON_stringify : JSValue num -> string.

(** Whether [localStorage.setItem] stores the text it is given; when it
    does not (the quota is exceeded) it throws, and the hook logs the error
    and goes on. *)
Variable setItem_accepts : string -> bool.

(** The state of the hook, with the item stored under [STORAGE_KEY].
    Reading and removing the item succeed; only writing can be refused. *)
Record Hook : Type := {
  history : list (JSValue num);
  isLoading : bool;
  item : option string
}.

(** [{ entries: history }] *)
Definition HistoryState (history : list (JSValue num)) : JSValue num :=
  JObject [("entries"%string, JArray history)].

(** The second effect: it runs after every render in which [history] or
    [isLoading] changed. *)
Definition persistEffect (h : Hook) : Hook :=
  if isLoading h then h
  else
    let text := JSON_stringify (HistoryState (history h)) in
    if setItem_accepts text
    then {| history := history h; isLoading := isLoading h; item := Some text |}
    else h.

(** Mounting: the first render has an empty log and [isLoading] set; the
    first effect loads the stored item and clears [isLoading], the second
    effect of that pass still sees [isLoading] set and does nothing; the
    render that follows runs the second effect again. *)
Definition mount (stored : option string) : Hook :=
  persistEffect
    {| history := initialize JSON_parse (Returned stored);
       isLoading := false;
       item := stored |}.

(** [addEntry], then the render it causes.  The updater returns a new
    array, so the second effect runs. *)
Definition addEntry_rendered (entry : EntryFields num) (w : Surroundings num)
    (h : Hook) : Hook :=
  persistEffect
    {| history := snd (addEntry entry w (history h));
       isLoading := isLoading h;
       item := item h |}.

(** [clearHistory], then the render it causes: [setHistory([])] installs a
    new array, [removeItem] deletes the stored item, and the second effect
    runs on the new array. *)
Definition clearHistory_rendered (h : Hook) : Hook :=
  persistEffect
    {| history := clearHistory (history h);
       isLoading := isLoading h;
       item := None |}.

Variant command : Type :=
  | Add (entry : EntryFields num) (w : Surroundings num)
  | Clear.

Definition perform (h : Hook) (c : command) : Hook :=
  match c with
  | Add entry w => addEntry_rendered entry w h
  | Clear => clearHistory_rendered h
  end.

(** What a command does to the log in memory. *)
Definition operation_of (c : command) : operation num :=
  match c with
  | Add entry w => AddEntry entry w
  | Clear => ClearHistory
  end.

(** A session: the mount, then the commands in order. *)
Definition session (stored : option string) (cs : list command) : Hook :=
  fold_left perform cs (mount stored).
End WithBuiltins.

Arguments Hook num : clear implicits.
Arguments command num : clear implicits.

End Persistence.

(** ** [components/EmiCalculator.tsx] *)

Module Component.
Import History.

Module Errors.
Record t : Type := {
  principal : option string;
  interestRate : option string;
  tenure : option string
}.

(** [{}] *)
Definition empty : t :=
  {| principal := None; interestRate := None; tenure := None |}.
End Errors.

(** The state of the component, the log of the hook apart. *)
Record State : Type := {
  principal : string;
  interestRate : string;
  tenure : string;
  tenureUnit : Form.TenureUnit;
  result : option (Emi.EMIResult float);
  errors : Errors.t
}.

Definition initial : State :=
  {| principal := ""; interestRate := ""; tenure := "";
     tenureUnit := Form.years; result := None; errors := Errors.empty |}.

Section WithBuiltins.
Variable parseFloat : string -> float.
Variable pow : float -> float -> float.
Variable Number_toString : float -> string.

(** [validateInputs]: the errors it installs with [setErrors] and the
    boolean it returns. *)
Definition validateInputs (st : State) : Errors.t * bool :=
  let principalNum := parseFloat (principal st) in
  let principalBad :=
    String.eqb (principal st) "" || PrimFloat.is_nan principalNum
    || PrimFloat.leb principalNum PrimFloat.zero in
  let rateNum := parseFloat (interestRate st) in
  let rateBad :=
    String.eqb (interestRate st) "" || PrimFloat.is_nan rateNum
    || PrimFloat.ltb rateNum PrimFloat.zero in
  let tenureNum := parseFloat (tenure st) in
  let tenureBad := Form.tenure_rejected (tenure st) tenureNum in
  ({| Errors.principal :=
        if principalBad then Some "Principal amount must be greater than 0"%string
        else None;
      Errors.interestRate :=
        if rateBad then Some "Interest rate must be 0 or greater"%string
        else None;
      Errors.tenure :=
        if tenureBad then Some "Tenure must be greater than 0"%string
        else None |},
   negb principalBad && negb rateBad && negb tenureBad).

(** [handleCalculate], on the state of the component and the log. *)
Definition handleCalculate (w : Surroundings float) (st : State)
    (history : list (JSValue float))
  : outcome (State * list (JSValue float)) :=
  let (newErrors, isValid) := validateInputs st in
  if negb isValid then
    Returned ({| principal := principal st; interestRate := interestRate st;
                 tenure := tenure st; tenureUnit := tenureUnit st;
                 result := None; errors := newErrors |}, history)
  else
    let principalNum := parseFloat (principal st) in
    let rateNum := parseFloat (interestRate st) in
    let tenureNum := parseFloat (tenure st) in
    let tenureInMonths := Form.tenureInMonths (tenureUnit st) tenureNum in
    match Emi.calculateEMI (binary64 pow) principalNum rateNum tenureInMonths with
    | Thrown e => Thrown e
    | Returned emiResult =>
        Returned
          ({| principal := principal st; interestRate := interestRate st;
              tenure := tenure st; tenureUnit := tenureUnit st;
              result := Some emiResult; errors := newErrors |},
           snd (addEntry
                  {| History.principal := principalNum;
                     History.annualInterestRate := rateNum;
                     History.tenureMonths := tenureInMonths;
                     History.monthlyEMI := Emi.monthlyEMI emiResult;
                     History.totalInterest := Emi.totalInterest emiResult;
                     History.totalPayment := Emi.totalPayment emiResult |}
                  w history))
    end.

Definition handleReset (st : State) : State := initial.

Definition nullish (v : JSValue float) : bool :=
  match v with
  | JUndefined | JNull => true
  | _ => false
  end.

Definition number_of (v : JSValue float) : option float :=
  match v with
  | JNumber x => Some x
  | _ => None
  end.

(** How a handler ends: it runs to its end, or it throws.  Either way the
    component is left in the state its setters have built so far: React
    applies the updates a handler queued before it threw. *)
Variant handled : Type :=
  | Completed (st : State)
  | Failed (st : State) (e : JSError).

(** [entry.key.toString()] for a field the entry type declares a number:
    the number whose text is taken, or the [TypeError] of calling
    [toString] on [undefined] or [null].  A field that holds another kind
    of value (only a tampered store holds such an entry) is outside this
    model: [None]. *)
Definition number_field (entry : JSValue float) (key : string)
  : option (outcome float) :=
  match get_member entry key with
  | Thrown e => Some (Thrown e)
  | Returned v =>
      if nullish v then Some (Thrown TypeError)
      else match number_of v with
           | Some x => Some (Returned x)
           | None => None
           end
  end.

(** [handleLoadEntry], statement by statement.  An entry found by [find]
    has a string [id], so it is an object and the test [!entry] only
    catches [undefined]. *)
Definition handleLoadEntry (entryId : string) (st : State)
    (history : list (JSValue float)) : option handled :=
  match getEntry entryId history with
  | Thrown e => Some (Failed st e)
  | Returned JUndefined => Some (Completed st)
  | Returned entry =>
      match number_field entry "principal" with
      | None => None
      | Some (Thrown e) => Some (Failed st e)
      | Some (Returned p) =>
          let st1 :=
            {| principal := Number_toString p;
               interestRate := interestRate st; tenure := tenure st;
               tenureUnit := tenureUnit st; result := result st;
               errors := errors st |} in
          match number_field entry "annualInterestRate" with
          | None => None
          | Some (Thrown e) => Some (Failed st1 e)
          | Some (Returned r) =>
              let st2 :=
                {| principal := Number_toString p;
                   interestRate := Number_toString r; tenure := tenure st;
                   tenureUnit := tenureUnit st; result := result st;
                   errors := errors st |} in
              match number_field entry "tenureMonths" with
              | None => None
              | Some (Thrown e) => Some (Failed st2 e)
              | Some (Returned n) =>
                  let st3 :=
                    {| principal := Number_toString p;
                       interestRate := Number_toString r;
                       tenure := Number_toString n;
                       tenureUnit := Form.months; result := result st;
                       errors := Errors.empty |} in
                  match Emi.calculateEMI (binary64 pow) p r n with
                  | Thrown e => Some (Failed st3 e)
                  | Returned emiResult =>
                      Some (Completed
                        {| principal := Number_toString p;
                           interestRate := Number_toString r;
                           tenure := Number_toString n;
                           tenureUnit := Form.months;
                           result := Some emiResult;
                           errors := Errors.empty |})
                  end
              end
          end
      end
  end.
End WithBuiltins.

End Component.

(** ** Sample data for concrete runs *)

Module Samples.
Import History.

(** The scenario of the specification: 100000 at 0% over 10 months. *)
Definition fields : EntryFields float := {|
  principal := 100000;
  annualInterestRate := 0;
  tenureMonths := 10;
  monthlyEMI := 10000;
  totalInterest := 0;
  totalPayment := 100000
|}%float.

(** The [i]-th call of a session: the clock advances by one millisecond. *)
Definition surroundings (i : nat) : Surroundings float := {|
  now_text := "17000000000"
              ++ String (ascii_of_nat (48 + (i / 10) mod 10))
                   (String (ascii_of_nat (48 + i mod 10)) "");
  random_text := "0.4fzyo82mvyr";
  now := (1700000000000 + float_of_Z (Z.of_nat i))%float
|}.

Definition calls (k : nat) : list (EntryFields float * Surroundings float) :=
  map (fun i => (fields, surroundings i)) (seq 0 k).

Definition double_quote : string := String (ascii_of_nat 34) "".

(** The text [{ "entries" : [null] }] without its blanks, and what
    [JSON.parse] makes of it. *)
Definition corrupt_payload : string :=
  "{" ++ double_quote ++ "entries" ++ double_quote ++ ":[null]}".

Definition corrupt_parsed : JSValue float :=
  JObject [("entries"%string, JArray [JNull])].



End Samples.

(** ** Stand-ins for built-in functions, for concrete runs *)

Module Fixtures.
Import History.

(** [parseFloat] on the texts used below; every other text gives NaN here. *)
Definition parseFloat (text : string) : float :=
  if String.eqb text "100000" then 100000%float
  else if String.eqb text "8.5" then 8.5%float
  else if String.eqb text "20" then 20%float
  else PrimFloat.nan.

(** [Number.prototype.toString] on the numbers used below. *)
Definition Number_toString (x : float) : string :=
  if PrimFloat.eqb x 100000 then "100000"
  else if PrimFloat.eqb x 8.5 then "8.5"
  else if PrimFloat.eqb x 240 then "240"
  else if PrimFloat.eqb x 10 then "10"
  else "0".

(** A form filled in with 100000 at 8.5% over 20 years. *)
Definition filled : Component.State :=
  {| Component.principal := "100000";
     Component.interestRate := "8.5";
     Component.tenure := "20";
     Component.tenureUnit := Form.years;
     Component.result := None;
     Component.errors := Component.Errors.empty |}.

(** A second calculation: 500000 at 0% over 10 months. *)
Definition other_fields : EntryFields float := {|
  principal := 500000;
  annualInterestRate := 0;
  tenureMonths := 10;
  monthlyEMI := 50000;
  totalInterest := 0;
  totalPayment := 500000
|}%float.

(** A store that accepts every write, with a serialiser that writes one
    fixed text and a parser that reads it back as the log [saved]. *)
Definition saved : list (JSValue float) :=
  [newEntry Samples.fields (Samples.surroundings 0)].

Definition JSON_stringify (v : JSValue float) : string := "saved".

Definition JSON_parse (text : string) : outcome (JSValue float) :=
  if String.eqb text "saved" then Returned (Persistence.HistoryState saved)
  else Thrown SyntaxError.

Definition setItem_accepts (text : string) : bool := true.

End Fixtures.

(** * Properties *)

(** ** Doubles are coherently ordered *)

Lemma SFcompare_swap (a b : spec_float) :
  SFcompare b a = option_map CompOpp (SFcompare a b).
Proof.
  destruct a as [sa | sa | | sa ma ea], b as [sb | sb | | sb mb eb]; simpl;
    try reflexivity;
    try (destruct sa; reflexivity); try (destruct sb; reflexivity);
    try (destruct sa, sb; reflexivity).
  destruct sa, sb; simpl; try reflexivity;
    rewrite (Z.compare_antisym ea eb);
    destruct (ea ?= eb)%Z; simpl; try reflexivity;
    change (PosDef.Pos.compare_cont Eq mb ma) with (Pos.compare mb ma);
    change (PosDef.Pos.compare_cont Eq ma mb) with (Pos.compare ma mb);
    rewrite (Pos.compare_antisym ma mb);
    destruct (ma ?= mb)%positive; reflexivity.
Qed.

(** Comparisons of doubles are read off [SFcompare] on their
    specifications; swapping the operands is then a case analysis on the one
    comparison. *)
Ltac compare_cases x y :=
  rewrite ?ltb_spec, ?leb_spec, ?eqb_spec; unfold SFltb, SFleb, SFeqb;
  rewrite (SFcompare_swap (Prim2SF x) (Prim2SF y));
  destruct (SFcompare (Prim2SF x) (Prim2SF y)) as [[]|]; simpl; congruence.

Lemma float_lt_excludes_le (x y : float) :
  PrimFloat.ltb x y = true -> PrimFloat.leb y x = false.
Proof. compare_cases x y. Qed.

Lemma float_le_excludes_lt (x y : float) :
  PrimFloat.leb x y = true -> PrimFloat.ltb y x = false.
Proof. compare_cases x y. Qed.

Lemma float_lt_asym (x y : float) :
  PrimFloat.ltb x y = true -> PrimFloat.ltb y x = false.
Proof. compare_cases x y. Qed.

Lemma float_lt_not_eq (x y : float) :
  PrimFloat.ltb x y = true -> PrimFloat.eqb y x = false.
Proof. compare_cases x y. Qed.

(** No double is below itself (NaN included). *)
Lemma float_lt_irrefl (x : float) : PrimFloat.ltb x x = false.
Proof.
  rewrite ltb_spec. unfold SFltb.
  pose proof (SFcompare_swap (Prim2SF x) (Prim2SF x)) as E.
  destruct (SFcompare (Prim2SF x) (Prim2SF x)) as [[]|]; simpl in *; congruence.
Qed.

#[export] Instance binary64_order (pow : float -> float -> float) :
  @JSNumberOrder float (binary64 pow).
Proof.
  split; simpl; intros x y.
  - apply float_lt_excludes_le.
  - apply float_le_excludes_lt.
Qed.

(** ** Rounding: signs of quotients, products and differences *)

Section Rounding.
Local Open Scope Z_scope.

Lemma digits2_pos_size (p : positive) : digits2_pos p = Pos.size p.
Proof. induction p; simpl; congruence. Qed.

Lemma Zdigits2_log2 (p : positive) :
  Zdigits2 (Zpos p) = Z.succ (Z.log2 (Zpos p)).
Proof.
  unfold Zdigits2. rewrite digits2_pos_size.
  destruct p; simpl; try reflexivity; rewrite Pos2Z.inj_succ; reflexivity.
Qed.

Lemma digits_lower (m : positive) (k : Z) :
  0 <= k -> 2 ^ k <= Zpos m -> k < Zdigits2 (Zpos m).
Proof.
  intros Hk H. rewrite Zdigits2_log2.
  apply Z.log2_le_pow2 in H; lia.
Qed.

Lemma digits_upper (m : positive) :
  2 ^ (Zdigits2 (Zpos m) - 1) <= Zpos m.
Proof.
  rewrite Zdigits2_log2.
  replace (Z.succ (Z.log2 (Zpos m)) - 1) with (Z.log2 (Zpos m)) by lia.
  apply Z.log2_spec. lia.
Qed.

Lemma Zdigits2_mono (a b : positive) :
  Zpos a <= Zpos b -> Zdigits2 (Zpos a) <= Zdigits2 (Zpos b).
Proof.
  intros H. rewrite !Zdigits2_log2.
  pose proof (Z.log2_le_mono _ _ H). lia.
Qed.

(** One step of the shift register halves the significand. *)
Lemma shr_1_m (r : shr_record) :
  0 <= shr_m r -> shr_m (shr_1 r) = shr_m r / 2.
Proof.
  destruct r as [m b s]. simpl. intros H.
  destruct m as [| [p | p |] | p]; simpl; try reflexivity; try lia.
  - rewrite Pos2Z.inj_xI. apply Z.div_unique with 1; lia.
  - rewrite Pos2Z.inj_xO. apply Z.div_unique with 0; lia.
Qed.

Lemma iter_shr_1_m (p : positive) : forall r : shr_record,
  0 <= shr_m r -> shr_m (SpecFloat.iter_pos shr_1 p r) = shr_m r / 2 ^ Zpos p.
Proof.
  induction p as [p IH | p IH |]; intros r H; simpl SpecFloat.iter_pos.
  - assert (H1 : 0 <= shr_m (shr_1 r))
      by (rewrite shr_1_m by assumption; apply Z.div_pos; lia).
    assert (H2 : 0 <= shr_m (SpecFloat.iter_pos shr_1 p (shr_1 r)))
      by (rewrite IH by assumption; apply Z.div_pos; lia).
    rewrite IH, IH, shr_1_m by assumption.
    rewrite !Z.div_div by lia. f_equal.
    rewrite Pos2Z.inj_xI, <- !Z.pow_add_r, <- Z.pow_succ_r by lia.
    f_equal. lia.
  - assert (H2 : 0 <= shr_m (SpecFloat.iter_pos shr_1 p r))
      by (rewrite IH by assumption; apply Z.div_pos; lia).
    rewrite IH, IH by assumption.
    rewrite !Z.div_div by lia. f_equal.
    rewrite Pos2Z.inj_xO, <- !Z.pow_add_r by lia. f_equal. lia.
  - rewrite shr_1_m by assumption. reflexivity.
Qed.

Lemma shr_record_of_loc_m (m : Z) (l : location) :
  shr_m (shr_record_of_loc m l) = m.
Proof. destruct l as [| []]; reflexivity. Qed.

(** A significand whose top bit lies above the least subnormal keeps a
    positive significand, with its top bit still above it, when it is
    shifted to its format exponent.  -1074 is the exponent of the least
    subnormal double. *)
Lemma shr_fexp_pos (m : positive) (e : Z) (l : location) :
  -1074 < Zdigits2 (Zpos m) + e ->
  exists m',
    shr_m (fst (shr_fexp prec emax (Zpos m) e l)) = Zpos m'
    /\ -1074 < Zdigits2 (Zpos m') + snd (shr_fexp prec emax (Zpos m) e l).
Proof.
  intros H. unfold shr_fexp, shr.
  set (d := Zdigits2 (Zpos m)) in *.
  assert (Hd : 0 < d) by (unfold d; simpl; lia).
  assert (Hn : fexp prec emax (d + e) - e < d).
  { unfold fexp, SpecFloat.emin, prec, emax. lia. }
  destruct (fexp prec emax (d + e) - e) as [| p | p] eqn:En;
    simpl fst; simpl snd.
  - exists m. rewrite shr_record_of_loc_m. auto.
  - rewrite iter_shr_1_m by (rewrite shr_record_of_loc_m; lia).
    rewrite shr_record_of_loc_m.
    pose proof (digits_upper m) as U. fold d in U.
    assert (L : 2 ^ (d - 1 - Zpos p) <= Zpos m / 2 ^ Zpos p).
    { apply Z.div_le_lower_bound; [lia|].
      rewrite <- Z.pow_add_r by lia.
      replace (Zpos p + (d - 1 - Zpos p)) with (d - 1) by lia. exact U. }
    assert (P : 0 < 2 ^ (d - 1 - Zpos p)) by (apply Z.pow_pos_nonneg; lia).
    destruct (Zpos m / 2 ^ Zpos p) as [| q | q] eqn:Eq; try lia.
    exists q. split; [reflexivity|].
    pose proof (@digits_lower q (d - 1 - Zpos p) ltac:(lia) L). lia.
  - exists m. rewrite shr_record_of_loc_m. auto.
Qed.

Lemma round_nearest_even_pos (m : positive) (l : location) :
  exists m2, round_nearest_even (Zpos m) l = Zpos m2 /\ Zpos m <= Zpos m2.
Proof.
  assert (S : Zpos m + 1 = Zpos (m + 1)) by reflexivity.
  unfold round_nearest_even.
  destruct l as [| []]; try destruct (Z.even (Zpos m)); rewrite ?S;
    eexists; (split; [reflexivity | lia]).
Qed.

(** Rounding such a significand gives a finite double or an infinity of the
    same sign, never a zero and never a NaN. *)
Lemma binary_round_aux_pos (s : bool) (m : positive) (e : Z) (l : location) :
  -1074 < Zdigits2 (Zpos m) + e ->
  (exists m' e',
      binary_round_aux prec emax s (Zpos m) e l = S754_finite s m' e')
  \/ binary_round_aux prec emax s (Zpos m) e l = S754_infinity s.
Proof.
  intros H. unfold binary_round_aux.
  destruct (@shr_fexp_pos _ _ l H) as (m1 & E1 & H1).
  destruct (shr_fexp prec emax (Zpos m) e l) as [mrs1 e1].
  cbn [fst snd] in E1, H1. rewrite E1.
  destruct (round_nearest_even_pos m1 (loc_of_shr_record mrs1))
    as (m2 & E2 & L2).
  rewrite E2.
  assert (H2 : -1074 < Zdigits2 (Zpos m2) + e1).
  { pose proof (@Zdigits2_mono _ _ L2). lia. }
  destruct (@shr_fexp_pos _ _ loc_Exact H2) as (m3 & E3 & _).
  destruct (shr_fexp prec emax (Zpos m2) e1 loc_Exact) as [mrs3 e3].
  cbn [fst snd] in E3. rewrite E3.
  destruct (e3 <=? emax - prec); [left; eauto | right; reflexivity].
Qed.

(** Rounding never turns a non-negative significand into a NaN, and keeps
    the sign it is given. *)
Lemma shr_fexp_nonneg (m e : Z) (l : location) :
  0 <= m -> 0 <= shr_m (fst (shr_fexp prec emax m e l)).
Proof.
  intros H. unfold shr_fexp, shr.
  destruct (fexp prec emax (Zdigits2 m + e) - e) as [| p | p]; simpl fst;
    rewrite ?iter_shr_1_m by (rewrite shr_record_of_loc_m; exact H);
    rewrite shr_record_of_loc_m; try exact H.
  apply Z.div_pos; lia.
Qed.

Lemma round_nearest_even_nonneg (m : Z) (l : location) :
  0 <= m -> 0 <= round_nearest_even m l.
Proof.
  unfold round_nearest_even.
  destruct l as [| []]; try destruct (Z.even m); lia.
Qed.

Lemma binary_round_aux_sign (s : bool) (m e : Z) (l : location) :
  0 <= m -> number_sign (binary_round_aux prec emax s m e l) = Some s.
Proof.
  intros H. unfold binary_round_aux.
  pose proof (@shr_fexp_nonneg m e l H) as H1.
  destruct (shr_fexp prec emax m e l) as [mrs1 e1]. cbn [fst] in H1.
  pose proof (@round_nearest_even_nonneg _ (loc_of_shr_record mrs1) H1) as H2.
  pose proof (@shr_fexp_nonneg _ e1 loc_Exact H2) as H3.
  destruct (shr_fexp prec emax _ e1 loc_Exact) as [mrs3 e3]. cbn [fst] in H3.
  destruct (shr_m mrs3) as [| q | q]; [reflexivity | | lia].
  destruct (e3 <=? emax - prec); reflexivity.
Qed.

(** Aligning a significand on a smaller exponent multiplies it by a power
    of two. *)
Lemma iter_xO (d m : positive) :
  Zpos (Pos.iter xO m d) = Zpos m * 2 ^ Zpos d.
Proof.
  induction d as [| d IH] using Pos.peano_ind.
  - simpl. lia.
  - rewrite Pos.iter_succ, Pos2Z.inj_xO, IH, Pos2Z.inj_succ, Z.pow_succ_r
      by lia.
    lia.
Qed.

Lemma shl_align_value (m : positive) (e e' : Z) :
  e' <= e -> Zpos (fst (shl_align m e e')) = Zpos m * 2 ^ (e - e').
Proof.
  intros H. unfold shl_align.
  destruct (e' - e) as [| d | d] eqn:E; cbn [fst]; try lia.
  - replace (e - e') with 0 by lia. lia.
  - change (PosDef.Pos.iter xO m d) with (Pos.iter xO m d).
    rewrite iter_xO. f_equal. f_equal. lia.
Qed.

(** A positive significand at an exponent of the format does not round to
    zero. *)
Lemma binary_round_pos (s : bool) (m : positive) (e : Z) :
  -1074 <= e ->
  (exists m' e', binary_round prec emax s m e = S754_finite s m' e')
  \/ binary_round prec emax s m e = S754_infinity s.
Proof.
  intros H. unfold binary_round.
  set (e' := fexp prec emax (Zpos (digits2_pos m) + e)).
  assert (D : -1074 < Zdigits2 (Zpos (fst (shl_align m e e')))
                      + snd (shl_align m e e')).
  { unfold shl_align.
    destruct (e' - e) as [| d | d] eqn:E; cbn [fst snd].
    1,2: unfold Zdigits2; lia.
    change (PosDef.Pos.iter xO m d) with (Pos.iter xO m d).
    assert (L : 2 ^ Zpos d <= Zpos (Pos.iter xO m d)).
    { rewrite iter_xO.
      assert (0 < 2 ^ Zpos d) by (apply Z.pow_pos_nonneg; lia). nia. }
    pose proof (@digits_lower _ (Zpos d) ltac:(lia) L). lia. }
  destruct (shl_align m e e') as [mz ez]. cbn [fst snd] in D.
  apply binary_round_aux_pos. exact D.
Qed.

Lemma binary_round_sign (s : bool) (m : positive) (e : Z) :
  number_sign (binary_round prec emax s m e) = Some s.
Proof.
  unfold binary_round.
  destruct (shl_align m e _) as [mz ez].
  apply binary_round_aux_sign. lia.
Qed.

Lemma digits_bound (m : positive) : Zpos m < 2 ^ Zdigits2 (Zpos m).
Proof.
  rewrite Zdigits2_log2. apply Z.log2_spec. lia.
Qed.

(** The significand of a double has at most 53 bits, and exactly 53 above
    the least exponent. *)
Lemma canonical_bounds (m : positive) (e : Z) :
  bounded prec emax m e = true ->
  -1074 <= e /\ Zdigits2 (Zpos m) <= 53
  /\ (-1074 < e -> Zdigits2 (Zpos m) = 53).
Proof.
  unfold bounded, canonical_mantissa. intros V.
  apply andb_prop in V. destruct V as [V _].
  apply Z.eqb_eq in V. unfold fexp, SpecFloat.emin, prec, emax in V.
  change (Zdigits2 (Zpos m)) with (Zpos (digits2_pos m)). lia.
Qed.

(** Two positive doubles compare as their significands do once these are
    aligned on the smaller exponent. *)
Lemma aligned_compare (mx my : positive) (ex ey : Z) :
  bounded prec emax mx ex = true -> bounded prec emax my ey = true ->
  match ex ?= ey with
  | Eq => Pos.compare mx my
  | Lt => Lt
  | Gt => Gt
  end
  = (Zpos (fst (shl_align mx ex (Z.min ex ey)))
     ?= Zpos (fst (shl_align my ey (Z.min ex ey)))).
Proof.
  intros Vx Vy.
  destruct (canonical_bounds _ _ Vx) as (Lx & Dx & Nx).
  destruct (canonical_bounds _ _ Vy) as (Ly & Dy & Ny).
  rewrite !shl_align_value by lia.
  pose proof (digits_bound mx) as Bx. pose proof (digits_bound my) as By.
  pose proof (digits_upper mx) as Ux. pose proof (digits_upper my) as Uy.
  destruct (Z.compare_spec ex ey) as [E | E | E].
  - subst ey. rewrite Z.min_id, Z.sub_diag, !Z.mul_1_r. reflexivity.
  - rewrite Z.min_l, Z.sub_diag, Z.mul_1_r by lia.
    symmetry. apply Z.compare_lt_iff.
    rewrite (Ny ltac:(lia)) in Uy.
    assert (P : 2 ^ 1 <= 2 ^ (ey - ex)) by (apply Z.pow_le_mono_r; lia).
    assert (Q : Zpos mx < 2 ^ 53).
    { eapply Z.lt_le_trans; [exact Bx|]. apply Z.pow_le_mono_r; lia. }
    change (2 ^ (53 - 1)) with 4503599627370496 in Uy.
    change (2 ^ 53) with 9007199254740992 in Q.
    change (2 ^ 1) with 2 in P. nia.
  - rewrite Z.min_r, Z.sub_diag, Z.mul_1_r by lia.
    symmetry. apply Z.compare_gt_iff.
    rewrite (Nx ltac:(lia)) in Ux.
    assert (P : 2 ^ 1 <= 2 ^ (ex - ey)) by (apply Z.pow_le_mono_r; lia).
    assert (Q : Zpos my < 2 ^ 53).
    { eapply Z.lt_le_trans; [exact By|]. apply Z.pow_le_mono_r; lia. }
    change (2 ^ (53 - 1)) with 4503599627370496 in Ux.
    change (2 ^ 53) with 9007199254740992 in Q.
    change (2 ^ 1) with 2 in P. nia.
Qed.

(** Subtracting a positive finite double: the difference compares with zero
    as the minuend compares with the subtrahend.  A difference of
    two distinct doubles never rounds to zero. *)
Lemma SFsub_compare (x : spec_float) (my : positive) (ey : Z) :
  valid_binary x = true -> bounded prec emax my ey = true ->
  SFcompare (SFsub prec emax x (S754_finite false my ey)) (S754_zero false)
  = SFcompare x (S754_finite false my ey).
Proof.
  intros Vx Vy.
  destruct x as [sx | sx | | sx mx ex]; try reflexivity.
  cbn [SFsub].
  destruct (canonical_bounds _ _ Vy) as (Ly & _).
  change (valid_binary (S754_finite sx mx ex))
    with (bounded prec emax mx ex) in Vx.
  destruct (canonical_bounds _ _ Vx) as (Lx & _).
  set (ez := IntDef.Z.min ex ey).
  assert (Lz : -1074 <= ez)
    by (unfold ez; change IntDef.Z.min with Z.min; lia).
  destruct sx; cbn [cond_Zopp SFcompare].
  - destruct (Z.opp (Zpos (fst (shl_align mx ex ez)))
              - Zpos (fst (shl_align my ey ez))) as [| q | q] eqn:D; try lia.
    cbn [binary_normalize].
    destruct (@binary_round_pos true q ez Lz) as [(m' & e' & R) | R];
      rewrite R; reflexivity.
  - change (PosDef.Pos.compare_cont Eq mx my) with (Pos.compare mx my).
    rewrite (@aligned_compare mx my ex ey Vx Vy). fold ez.
    change (IntDef.Z.min ex ey) with ez.
    rewrite Z.compare_sub.
    destruct (Zpos (fst (shl_align mx ex ez))
              - Zpos (fst (shl_align my ey ez))) as [| q | q] eqn:D;
      cbn [binary_normalize].
    + reflexivity.
    + destruct (@binary_round_pos false q ez Lz) as [(m' & e' & R) | R];
        rewrite R; reflexivity.
    + destruct (@binary_round_pos true q ez Lz) as [(m' & e' & R) | R];
        rewrite R; reflexivity.
Qed.

(** Quotients and products of doubles that are not negative are numbers
    that are not negative; a difference with a finite double is a number
    when the minuend is. *)
Lemma SFdiv_sign (mx my : positive) (ex ey : Z) :
  number_sign (SFdiv prec emax (S754_finite false mx ex)
                 (S754_finite false my ey)) = Some false.
Proof.
  cbn [SFdiv]. unfold SFdiv_core_binary.
  set (s := _ - _ - _).
  set (m' := match s with 0 => Zpos mx | Zpos _ => IntDef.Z.shiftl (Zpos mx) s
             | Zneg _ => 0 end).
  assert (M : 0 <= m').
  { unfold m'. destruct s; try lia.
    change IntDef.Z.shiftl with Z.shiftl. apply Z.shiftl_nonneg. lia. }
  pose proof (Z.div_pos m' (Zpos my) M ltac:(lia)) as Q.
  unfold Z.div in Q.
  change IntDef.Z.div_eucl with Z.div_eucl.
  destruct (Z.div_eucl m' (Zpos my)) as [q r]. cbn [fst] in Q.
  apply binary_round_aux_sign. exact Q.
Qed.

Lemma SFmul_sign (x : spec_float) (my : positive) (ey : Z) :
  number_sign x = Some false ->
  number_sign (SFmul prec emax x (S754_finite false my ey)) = Some false.
Proof.
  destruct x as [s | s | | s mx ex]; cbn [number_sign SFmul]; intros H;
    try discriminate H; injection H as ->; try reflexivity.
  apply binary_round_aux_sign. lia.
Qed.

Lemma SFsub_number (x : spec_float) (sy : bool) (my : positive) (ey : Z) :
  number_sign x <> None ->
  number_sign (SFsub prec emax x (S754_finite sy my ey)) <> None.
Proof.
  destruct x as [s | s | | s mx ex]; cbn [number_sign SFsub]; intros H;
    try discriminate; try contradiction.
  destruct (_ - _) as [| q | q]; cbn [binary_normalize];
    rewrite ?binary_round_sign; discriminate.
Qed.

Lemma SFdiv_sign_gen (x : spec_float) (my : positive) (ey : Z) :
  number_sign x = Some false ->
  number_sign (SFdiv prec emax x (S754_finite false my ey)) = Some false.
Proof.
  destruct x as [s | s | | s mx ex]; cbn [number_sign]; intros H;
    try discriminate H; injection H as ->; try reflexivity.
  apply SFdiv_sign.
Qed.

Lemma SFmul_sign_l (mx : positive) (ex : Z) (y : spec_float) :
  number_sign y = Some false ->
  number_sign (SFmul prec emax (S754_finite false mx ex) y) = Some false.
Proof.
  destruct y as [s | s | | s my ey]; cbn [number_sign SFmul]; intros H;
    try discriminate H; injection H as ->; try reflexivity.
  apply binary_round_aux_sign. lia.
Qed.
End Rounding.

Section PositiveDoubles.
Local Open Scope float_scope.

(** A double that is no NaN and is not [<= 0] is a positive finite number
    or the positive infinity. *)
Lemma positive_cases (x : float) :
  is_nan x = false -> (x <=? 0) = false ->
  Prim2SF x = S754_infinity false
  \/ exists m e, Prim2SF x = S754_finite false m e.
Proof.
  unfold is_nan. rewrite eqb_spec, leb_spec.
  change (Prim2SF 0) with (S754_zero false).
  destruct (Prim2SF x) as [s | [|] | | [|] m e]; simpl;
    try discriminate; eauto.
Qed.

Lemma twelve_spec : Prim2SF 12 = S754_finite false 6755399441055744 (-49).
Proof. reflexivity. Qed.

(** Twelve times a positive double is positive: the product cannot round
    to zero. *)
Lemma times_twelve_positive (x : float) :
  is_nan x = false -> (x <=? 0) = false -> (x * 12 <=? 0) = false.
Proof.
  intros N P.
  pose proof (Prim2SF_valid x) as V.
  rewrite leb_spec, mul_spec, twelve_spec.
  change (Prim2SF 0) with (S754_zero false).
  destruct (positive_cases N P) as [E | (m & e & E)]; rewrite E in *.
  - reflexivity.
  - unfold SF64mul, SFmul.
    assert (He : (-1074 <= e)%Z).
    { unfold valid_binary, bounded, canonical_mantissa in V.
      apply andb_prop in V. destruct V as [V _].
      apply Z.eqb_eq in V. unfold fexp, SpecFloat.emin, prec, emax in V. lia. }
    assert (Hd : (52 < Zdigits2 (Zpos (m * 6755399441055744)))%Z).
    { apply digits_lower; [lia|]. rewrite Pos2Z.inj_mul.
      assert (1 <= Zpos m)%Z by lia. nia. }
    destruct (@binary_round_aux_pos false (m * 6755399441055744)
                (e + -49) loc_Exact) as [(m' & e' & R) | R].
    + lia.
    + cbn [xorb]. rewrite R. reflexivity.
    + cbn [xorb]. rewrite R. reflexivity.
Qed.

(** A double strictly between 0 and Infinity. *)
Lemma finite_positive_cases (x : float) :
  (0 <? x) = true -> (x <? infinity) = true ->
  exists m e, Prim2SF x = S754_finite false m e
              /\ bounded prec emax m e = true.
Proof.
  rewrite !ltb_spec. pose proof (Prim2SF_valid x) as V.
  change (Prim2SF 0) with (S754_zero false).
  change (Prim2SF infinity) with (S754_infinity false).
  destruct (Prim2SF x) as [s | [|] | | [|] m e]; simpl;
    try discriminate; eauto.
Qed.

(** [x == x] fails for NaN only. *)
Lemma is_nan_sign (x : float) :
  is_nan x = false <-> number_sign (Prim2SF x) <> None.
Proof.
  unfold is_nan. rewrite eqb_spec. unfold SFeqb.
  destruct (Prim2SF x) as [s | s | | s m e]; simpl.
  - split; [discriminate | reflexivity].
  - destruct s; split; try discriminate; reflexivity.
  - split; [discriminate | contradiction].
  - rewrite Z.compare_refl.
    change (PosDef.Pos.compare_cont Eq m m) with (Pos.compare m m).
    rewrite Pos.compare_refl.
    destruct s; split; try discriminate; reflexivity.
Qed.

Lemma eqb_refl_nan (x : float) : (x =? x) = negb (is_nan x).
Proof. unfold is_nan. rewrite negb_involutive. reflexivity. Qed.

(** The sign of a difference: for a positive finite [y], [x - y] is below,
    equal to or above 0 exactly as [x] is below, equal to or above [y]. *)
Lemma sub_compare (x y : float) :
  (0 <? y) = true -> (y <? infinity) = true ->
  SFcompare (Prim2SF (x - y)) (Prim2SF 0) = SFcompare (Prim2SF x) (Prim2SF y).
Proof.
  intros P F.
  destruct (@finite_positive_cases y P F) as (m & e & E & B).
  rewrite sub_spec, E. change (Prim2SF 0) with (S754_zero false).
  apply SFsub_compare; [apply Prim2SF_valid | exact B].
Qed.


(** At rate 0 on finite inputs the three amounts are numbers. *)
Lemma zero_rate_numbers (p n : float) :
  (0 <? p) = true -> (p <? infinity) = true ->
  (0 <? n) = true -> (n <? infinity) = true ->
  is_nan (p / n) = false /\ is_nan (p / n * n) = false
  /\ is_nan (p / n * n - p) = false.
Proof.
  intros Pp Fp Pn Fn.
  destruct (@finite_positive_cases p Pp Fp) as (mp & ep & Ep & _).
  destruct (@finite_positive_cases n Pn Fn) as (mn & en & En & _).
  assert (Q : number_sign (Prim2SF (p / n)) = Some false).
  { rewrite div_spec, Ep, En. apply SFdiv_sign. }
  assert (T : number_sign (Prim2SF (p / n * n)) = Some false).
  { rewrite mul_spec, En. apply SFmul_sign. exact Q. }
  rewrite !is_nan_sign. split; [congruence|]. split; [congruence|].
  rewrite sub_spec, Ep. apply SFsub_number. congruence.
Qed.

Lemma is_nan_spec (x : float) :
  is_nan x = match number_sign (Prim2SF x) with
             | Some _ => false
             | None => true
             end.
Proof.
  destruct (number_sign (Prim2SF x)) as [s |] eqn:E.
  - apply is_nan_sign. congruence.
  - destruct (is_nan x) eqn:N; [reflexivity|].
    apply is_nan_sign in N. contradiction.
Qed.

(** Multiplying by, and subtracting, a positive finite double makes a NaN
    of a NaN only. *)
Lemma mul_finite_nan (x n : float) :
  (0 <? n) = true -> (n <? infinity) = true -> is_nan (x * n) = is_nan x.
Proof.
  intros P F.
  destruct (@finite_positive_cases n P F) as (m & e & E & _).
  rewrite !is_nan_spec, mul_spec, E. unfold SF64mul.
  destruct (Prim2SF x) as [s | s | | s mx ex]; cbn [SFmul number_sign];
    try reflexivity.
  rewrite binary_round_aux_sign by lia. reflexivity.
Qed.

Lemma sub_finite_nan (x p : float) :
  (0 <? p) = true -> (p <? infinity) = true -> is_nan (x - p) = is_nan x.
Proof.
  intros P F.
  destruct (@finite_positive_cases p P F) as (m & e & E & _).
  rewrite !is_nan_spec, sub_spec, E. unfold SF64sub.
  destruct (Prim2SF x) as [s | s | | s mx ex]; cbn [SFsub number_sign];
    try reflexivity.
  destruct (_ - _)%Z as [| q | q]; cbn [binary_normalize];
    rewrite ?binary_round_sign; reflexivity.
Qed.

(** The monthly rate of a positive finite rate is a number that is not
    negative. *)
Lemma monthly_rate_sign (r : float) :
  (0 <? r) = true -> (r <? infinity) = true ->
  number_sign (Prim2SF (r / 12 / 100)) = Some false.
Proof.
  intros P F.
  destruct (@finite_positive_cases r P F) as (m & e & E & _).
  destruct (@finite_positive_cases 12 eq_refl eq_refl) as (m1 & e1 & E1 & _).
  destruct (@finite_positive_cases 100 eq_refl eq_refl) as (m2 & e2 & E2 & _).
  rewrite div_spec, E2. apply SFdiv_sign_gen.
  rewrite div_spec, E, E1. apply SFdiv_sign.
Qed.

(** A double whose difference with 1 is positive and finite is itself
    positive and finite. *)
Lemma above_one_finite (x : float) :
  (0 <? x - 1) = true -> (x - 1 <? infinity) = true ->
  exists m e, Prim2SF x = S754_finite false m e.
Proof.
  intros P F.
  pose proof (@sub_compare x 1 eq_refl eq_refl) as C.
  rewrite ltb_spec in P, F. unfold SFltb in P, F.
  rewrite (SFcompare_swap (Prim2SF (x - 1)) (Prim2SF 0)), C in P.
  rewrite sub_spec in F.
  change (Prim2SF 1) with (S754_finite false 4503599627370496 (-52)) in *.
  change (Prim2SF infinity) with (S754_infinity false) in F.
  destruct (Prim2SF x) as [s | [|] | | [|] m e]; eauto;
    cbn [SFcompare option_map CompOpp] in P; try discriminate P.
  cbn [SFsub SFcompare] in F. discriminate F.
Qed.

(** The value of the formula is a number when the inputs are finite and
    the denominator is positive and finite. *)
Lemma formula_number (p r x : float) :
  (0 <? p) = true -> (p <? infinity) = true ->
  (0 <? r) = true -> (r <? infinity) = true ->
  (0 <? x - 1) = true -> (x - 1 <? infinity) = true ->
  is_nan (p * (r / 12 / 100) * x / (x - 1)) = false.
Proof.
  intros Pp Fp Pr Fr Pd Fd.
  destruct (@finite_positive_cases p Pp Fp) as (mp & ep & Ep & _).
  destruct (@finite_positive_cases (x - 1) Pd Fd) as (md & ed & Ed & _).
  destruct (@above_one_finite x Pd Fd) as (mx & ex & Ex).
  apply is_nan_sign.
  assert (S : number_sign (Prim2SF (p * (r / 12 / 100) * x / (x - 1)))
              = Some false); [|congruence].
  rewrite div_spec, Ed. apply SFdiv_sign_gen.
  rewrite mul_spec, Ex. apply SFmul_sign.
  rewrite mul_spec, Ep. apply SFmul_sign_l.
  apply monthly_rate_sign; assumption.
Qed.
End PositiveDoubles.

(** ** The calculator, under any coherently ordered number system *)

Section Calculator.
Context {num : Type} (N : JSNumber num) {O : JSNumberOrder (num := num)}.
Local Open Scope js_scope.

(** The call throws exactly when the guard of its first line holds. *)
Lemma calculateEMI_throws (p r n : num) :
  throws (Emi.calculateEMI N p r n)
  = (p <=? lit 0) || (n <=? lit 0) || (r <? lit 0).
Proof.
  unfold Emi.calculateEMI.
  destruct ((p <=? lit 0) || (n <=? lit 0) || (r <? lit 0)); reflexivity.
Qed.

Lemma calculateEMI_invalid (p r n : num) :
  (p <=? lit 0) || (n <=? lit 0) || (r <? lit 0) = true ->
  Emi.calculateEMI N p r n = Thrown (Error Emi.invalid_input_message).
Proof. unfold Emi.calculateEMI. intros ->. reflexivity. Qed.

Lemma valid_passes_guard (p r n : num) :
  (lit 0 <? p) = true -> (lit 0 <=? r) = true -> (lit 0 <? n) = true ->
  (p <=? lit 0) || (n <=? lit 0) || (r <? lit 0) = false.
Proof.
  intros Hp Hr Hn.
  rewrite (lt_excludes_le _ _ Hp), (lt_excludes_le _ _ Hn),
    (le_excludes_lt _ _ Hr).
  reflexivity.
Qed.

(** On a valid input the call returns, and the record it returns is built
    from the monthly instalment as in the last lines of the function. *)
Lemma calculateEMI_valid (p r n : num) :
  (lit 0 <? p) = true -> (lit 0 <=? r) = true -> (lit 0 <? n) = true ->
  exists res,
    Emi.calculateEMI N p r n = Returned res
    /\ Emi.monthlyEMI res
       = (if r === lit 0 then p / n
          else p * (r / lit 12 / lit 100)
               * Math_pow (lit 1 + r / lit 12 / lit 100) n
               / (Math_pow (lit 1 + r / lit 12 / lit 100) n - lit 1))
    /\ Emi.totalPayment res = Emi.monthlyEMI res * n
    /\ Emi.totalInterest res = Emi.totalPayment res - p
    /\ Emi.principal res = p
    /\ Emi.tenureMonths res = n.
Proof.
  intros Hp Hr Hn.
  unfold Emi.calculateEMI.
  rewrite (valid_passes_guard _ _ _ Hp Hr Hn).
  eexists. split; [reflexivity|].
  simpl. repeat split; reflexivity.
Qed.

(** Two rates with the same monthly rate are not told apart. *)
Lemma calculateEMI_same_monthly_rate (p r1 r2 n : num) :
  (r1 === lit 0) = false -> (r2 === lit 0) = false ->
  (r1 <? lit 0) = (r2 <? lit 0) ->
  r1 / lit 12 / lit 100 = r2 / lit 12 / lit 100 ->
  Emi.calculateEMI N p r1 n = Emi.calculateEMI N p r2 n.
Proof.
  intros Z1 Z2 G E. unfold Emi.calculateEMI.
  rewrite Z1, Z2, G, E. reflexivity.
Qed.
End Calculator.

(** ** The calculator on doubles *)

Section OnDoubles.
Variable pow : float -> float -> float.
Local Open Scope float_scope.

(** On a valid input with a positive rate the instalment is the value of
    the formula, computed in doubles with the engine's [Math.pow]. *)
Lemma positive_rate_instalment (p r n : float) :
  (0 <? p) = true -> (0 <? r) = true -> (0 <? n) = true ->
  exists res,
    Emi.calculateEMI (binary64 pow) p r n = Returned res
    /\ Emi.monthlyEMI res
       = p * (r / 12 / 100) * pow (1 + r / 12 / 100) n
         / (pow (1 + r / 12 / 100) n - 1)
    /\ Emi.totalPayment res = Emi.monthlyEMI res * n
    /\ Emi.totalInterest res = Emi.totalPayment res - p.
Proof.
  intros Hp Hr Hn.
  assert (Hr' : (0 <=? r) = true).
  { rewrite leb_spec. rewrite ltb_spec in Hr. unfold SFleb, SFltb in *.
    destruct (SFcompare (Prim2SF 0) (Prim2SF r)) as [[]|];
      try discriminate Hr; reflexivity. }
  destruct (calculateEMI_valid (N := binary64 pow) p r n Hp Hr' Hn)
    as (res & E & M & TP & TI & _).
  exists res. split; [exact E|]. split; [|split; [exact TP | exact TI]].
  rewrite M.
  change (@num_eq float (binary64 pow) r (@lit float (binary64 pow) 0))
    with (r =? 0).
  rewrite (float_lt_not_eq Hr). reflexivity.
Qed.

(** C1, as amended.  On every valid input (principal > 0, rate >= 0,
    tenure > 0) the call returns a record whose [monthlyEMI] is the quotient
    or the value of the formula, whose [totalPayment] is the double
    [monthlyEMI * tenureMonths] and whose [totalInterest] is the double
    [totalPayment - principal].  Compared with the equality of the language,
    under which NaN differs from itself, each equation holds exactly when
    the amount on its left is not NaN.  For a finite principal and tenure
    that is exactly when [monthlyEMI] is not NaN.  The instalment is a
    number at rate 0, and at every finite positive rate for which the
    denominator [Math.pow(1 + monthlyRate, tenureMonths) - 1] is positive
    and finite: there both equations hold. *)
Theorem C1_conservation (p r n : float) :
  (0 <? p) = true -> (0 <=? r) = true -> (0 <? n) = true ->
  exists res,
    Emi.calculateEMI (binary64 pow) p r n = Returned res
    /\ Emi.monthlyEMI res
       = (if r =? 0 then p / n
          else p * (r / 12 / 100) * pow (1 + r / 12 / 100) n
               / (pow (1 + r / 12 / 100) n - 1))
    /\ Emi.totalPayment res = Emi.monthlyEMI res * n
    /\ Emi.totalInterest res = Emi.totalPayment res - p
    /\ (Emi.totalPayment res =? Emi.monthlyEMI res * n)
       = negb (is_nan (Emi.totalPayment res))
    /\ (Emi.totalInterest res =? Emi.totalPayment res - p)
       = negb (is_nan (Emi.totalInterest res))
    /\ ((p <? infinity) = true -> (n <? infinity) = true ->
        is_nan (Emi.totalPayment res) = is_nan (Emi.monthlyEMI res)
        /\ is_nan (Emi.totalInterest res) = is_nan (Emi.monthlyEMI res)
        /\ ((r =? 0) = true
            \/ ((0 <? r) = true /\ (r <? infinity) = true
                /\ (0 <? pow (1 + r / 12 / 100) n - 1) = true
                /\ (pow (1 + r / 12 / 100) n - 1 <? infinity) = true) ->
            (Emi.totalPayment res =? Emi.monthlyEMI res * n) = true
            /\ (Emi.totalInterest res =? Emi.totalPayment res - p) = true)).
Proof.
  intros Hp Hr Hn.
  destruct (calculateEMI_valid (N := binary64 pow) p r n Hp Hr Hn)
    as (res & E & M & TP & TI & _).
  change (Emi.monthlyEMI res
          = (if r =? 0 then p / n
             else p * (r / 12 / 100) * pow (1 + r / 12 / 100) n
                  / (pow (1 + r / 12 / 100) n - 1))) in M.
  change (Emi.totalPayment res = Emi.monthlyEMI res * n) in TP.
  change (Emi.totalInterest res = Emi.totalPayment res - p) in TI.
  exists res. split; [exact E|]. split; [exact M|].
  split; [exact TP|]. split; [exact TI|].
  split; [rewrite <- TP; apply eqb_refl_nan|].
  split; [rewrite <- TI; apply eqb_refl_nan|].
  intros Fp Fn.
  assert (NP : is_nan (Emi.totalPayment res) = is_nan (Emi.monthlyEMI res)).
  { rewrite TP. apply mul_finite_nan; assumption. }
  assert (NI : is_nan (Emi.totalInterest res) = is_nan (Emi.monthlyEMI res)).
  { rewrite TI, <- NP. apply sub_finite_nan; assumption. }
  split; [exact NP|]. split; [exact NI|].
  intros C.
  assert (Q : is_nan (Emi.monthlyEMI res) = false).
  { rewrite M. destruct C as [Z | (Pr & Fr & Pd & Fd)].
    - rewrite Z. apply (@zero_rate_numbers p n); assumption.
    - rewrite (float_lt_not_eq Pr). apply formula_number; assumption. }
  rewrite <- TP, <- TI, !eqb_refl_nan, NP, NI, Q. auto.
Qed.

(** The guard, as a disjunction of the three comparisons. *)
Lemma guard_throws (p r n : float) :
  (p <=? 0) = true \/ (n <=? 0) = true \/ (r <? 0) = true ->
  Emi.calculateEMI (binary64 pow) p r n
  = Thrown (Error Emi.invalid_input_message).
Proof.
  intros H. apply calculateEMI_invalid.
  change ((p <=? 0) || (n <=? 0) || (r <? 0) = true).
  destruct H as [-> | [-> | ->]];
    rewrite ?orb_true_r; reflexivity.
Qed.

(** C2, as amended.  Whenever a precondition is violated (principal <= 0,
    tenure <= 0 or rate < 0) the call throws an [Error] carrying one fixed
    message, the same whichever field is at fault, and returns nothing. *)
Theorem C2_invalid_input_throws (p r n : float) :
  (p <=? 0) = true \/ (n <=? 0) = true \/ (r <? 0) = true ->
  Emi.calculateEMI (binary64 pow) p r n
  = Thrown (Error Emi.invalid_input_message).
Proof.
  intros H.
  assert (G : (p <=? 0) || (n <=? 0) || (r <? 0) = true).
  { destruct H as [H | [H | H]]; rewrite H.
    - reflexivity.
    - apply orb_true_iff. left. apply orb_true_r.
    - apply orb_true_r. }
  exact (calculateEMI_invalid (binary64 pow) p r n G).
Qed.

(** C5 (zero-rate linearity).  For principal > 0 and tenure > 0, the
    instalment at rate 0 is the quotient [principal / tenureMonths] of the
    doubles. *)
Theorem C5_zero_rate_linear (p n : float) :
  (0 <? p) = true -> (0 <? n) = true ->
  exists res,
    Emi.calculateEMI (binary64 pow) p 0 n = Returned res
    /\ Emi.monthlyEMI res = p / n.
Proof.
  intros Hp Hn.
  destruct (calculateEMI_valid (N := binary64 pow) p 0 n Hp eq_refl Hn)
    as (res & E & M & _).
  exists res. split; [exact E|]. exact M.
Qed.

(** C9 (the guard is the only source of errors).  The call throws exactly
    when principal <= 0, tenure <= 0 or rate < 0; a tenure of 0.5 months
    passes the guard, so with a valid principal and rate the call returns a
    record, whose [tenureMonths] is 0.5. *)
Theorem C9_throws_iff_guard :
  (forall p r n : float,
      (exists e, Emi.calculateEMI (binary64 pow) p r n = Thrown e)
      <-> ((p <=? 0) = true \/ (n <=? 0) = true \/ (r <? 0) = true))
  /\ (forall p r : float,
      (0 <? p) = true -> (0 <=? r) = true ->
      exists res,
        Emi.calculateEMI (binary64 pow) p r 0.5 = Returned res
        /\ Emi.tenureMonths res = 0.5).
Proof.
  split.
  - intros p r n.
    pose proof (calculateEMI_throws (binary64 pow) p r n) as T.
    change (throws (Emi.calculateEMI (binary64 pow) p r n)
            = (p <=? 0) || (n <=? 0) || (r <? 0)) in T.
    split.
    + intros [e E]. rewrite E in T. simpl in T. symmetry in T.
      apply orb_true_iff in T. destruct T as [T | T]; [|auto].
      apply orb_true_iff in T. tauto.
    + intros H. exists (Error Emi.invalid_input_message).
      apply guard_throws. exact H.
  - intros p r Hp Hr.
    destruct (calculateEMI_valid (N := binary64 pow) p r 0.5 Hp Hr eq_refl)
      as (res & E & _ & _ & _ & _ & T).
    exists res. auto.
Qed.

(** C10 (inputs are echoed).  On every valid input the returned record
    carries the principal and the tenure it was given. *)
Theorem C10_inputs_echoed (p r n : float) :
  (0 <? p) = true -> (0 <=? r) = true -> (0 <? n) = true ->
  exists res,
    Emi.calculateEMI (binary64 pow) p r n = Returned res
    /\ Emi.principal res = p
    /\ Emi.tenureMonths res = n.
Proof.
  intros Hp Hr Hn.
  destruct (calculateEMI_valid (N := binary64 pow) p r n Hp Hr Hn)
    as (res & E & _ & _ & _ & P & T).
  exists res. auto.
Qed.


(** Rates that round to the same monthly rate give the same record. *)
Lemma same_monthly_rate (p r1 r2 n : float) :
  (0 <? r1) = true -> (0 <? r2) = true ->
  r1 / 12 / 100 = r2 / 12 / 100 ->
  Emi.calculateEMI (binary64 pow) p r1 n
  = Emi.calculateEMI (binary64 pow) p r2 n.
Proof.
  intros H1 H2 E.
  apply calculateEMI_same_monthly_rate.
  - change ((r1 =? 0) = false). apply float_lt_not_eq, H1.
  - change ((r2 =? 0) = false). apply float_lt_not_eq, H2.
  - change ((r1 <? 0) = (r2 <? 0)).
    rewrite (float_lt_asym H1), (float_lt_asym H2). reflexivity.
  - exact E.
Qed.

(** One month at a rate just above 7%: when [Math.pow] returns its base at
    exponent 1, the instalment at 7.0000000000001616 is above the
    instalment at the next double, although the monthly rates differ. *)
Lemma fall_above_seven :
  pow (1 + 0x1.c0000000000b6p+2 / 12 / 100) 1
  = 1 + 0x1.c0000000000b6p+2 / 12 / 100 ->
  pow (1 + 0x1.c0000000000b7p+2 / 12 / 100) 1
  = 1 + 0x1.c0000000000b7p+2 / 12 / 100 ->
  exists e1 e2,
    Emi.calculateEMI (binary64 pow) 100000 0x1.c0000000000b6p+2 1
    = Returned e1
    /\ Emi.calculateEMI (binary64 pow) 100000 0x1.c0000000000b7p+2 1
       = Returned e2
    /\ (0x1.c0000000000b6p+2 / 12 / 100 <? 0x1.c0000000000b7p+2 / 12 / 100)
       = true
    /\ (Emi.monthlyEMI e2 <? Emi.monthlyEMI e1) = true.
Proof.
  intros H1 H2.
  destruct (@positive_rate_instalment 100000 0x1.c0000000000b6p+2 1
              eq_refl eq_refl eq_refl) as (e1 & E1 & M1 & _).
  destruct (@positive_rate_instalment 100000 0x1.c0000000000b7p+2 1
              eq_refl eq_refl eq_refl) as (e2 & E2 & M2 & _).
  exists e1, e2. split; [exact E1|]. split; [exact E2|].
  split; [reflexivity|].
  rewrite M1, M2, H1, H2. reflexivity.
Qed.


(** C6, as amended.  On the doubles the code computes with, the instalment
    is not an increasing function of the annual rate.  A positive rate
    enters the result only through the monthly rate [rate / 12 / 100],
    rounded twice: two positive rates with the same monthly rate give the
    same record, as 7 and the next double after 7 do for every principal
    and tenure.  Where the monthly rates differ the instalment can fall as
    the rate rises: for 100000 over one month it falls between
    7.0000000000001616 and the next double, whenever [Math.pow] returns its
    base at exponent 1. *)
Theorem C6_rate_monotonicity :
  (forall p n r1 r2 : float,
      (0 <? r1) = true -> (0 <? r2) = true ->
      r1 / 12 / 100 = r2 / 12 / 100 ->
      Emi.calculateEMI (binary64 pow) p r1 n
      = Emi.calculateEMI (binary64 pow) p r2 n)
  /\ ((7 <? 0x1.c000000000001p+2) = true
      /\ forall p n : float,
           Emi.calculateEMI (binary64 pow) p 7 n
           = Emi.calculateEMI (binary64 pow) p 0x1.c000000000001p+2 n)
  /\ (pow (1 + 0x1.c0000000000b6p+2 / 12 / 100) 1
      = 1 + 0x1.c0000000000b6p+2 / 12 / 100 ->
      pow (1 + 0x1.c0000000000b7p+2 / 12 / 100) 1
      = 1 + 0x1.c0000000000b7p+2 / 12 / 100 ->
      exists e1 e2,
        Emi.calculateEMI (binary64 pow) 100000 0x1.c0000000000b6p+2 1
        = Returned e1
        /\ Emi.calculateEMI (binary64 pow) 100000 0x1.c0000000000b7p+2 1
           = Returned e2
        /\ (0x1.c0000000000b6p+2 <? 0x1.c0000000000b7p+2) = true
        /\ (Emi.monthlyEMI e2 <? Emi.monthlyEMI e1) = true).
Proof.
  split; [|split].
  - intros p n r1 r2. apply same_monthly_rate.
  - split; [reflexivity|].
    intros p n. apply same_monthly_rate; reflexivity.
  - intros H1 H2.
    destruct (fall_above_seven H1 H2) as (e1 & e2 & E1 & E2 & _ & F).
    exists e1, e2. repeat split; assumption.
Qed.


End OnDoubles.

(** ** Concrete runs *)

Section Runs.
Local Open Scope float_scope.

(** The scenarios of the specification, run on doubles. *)
Example run_zero_rate :
  Emi.calculateEMI (binary64 float_pow) 100000 0 10
  = Returned {| Emi.monthlyEMI := 10000; Emi.totalPayment := 100000;
                Emi.totalInterest := 0; Emi.principal := 100000;
                Emi.tenureMonths := 10 |}.
Proof. reflexivity. Qed.

Example run_zero_principal :
  Emi.calculateEMI (binary64 float_pow) 0 5 12
  = Thrown (Error Emi.invalid_input_message).
Proof. reflexivity. Qed.

(** The form accepts a tenure of half a month and hands it on as it is. *)
Example run_half_month :
  Form.tenure_rejected "0.5" 0.5 = false
  /\ Form.tenureInMonths Form.months 0.5 = 0.5
  /\ Emi.calculateEMI (binary64 float_pow) 1000 0 0.5
     = Returned {| Emi.monthlyEMI := 2000; Emi.totalPayment := 1000;
                   Emi.totalInterest := 0; Emi.principal := 1000;
                   Emi.tenureMonths := 0.5 |}.
Proof. repeat split. Qed.

(** A principal of 500000 at 8.5% over 240 months: the amounts are numbers
    and both equations hold. *)
Lemma C1_conservation_witness :
  exists res,
    Emi.calculateEMI (binary64 float_pow) 500000 8.5 240 = Returned res
    /\ (Emi.totalPayment res =? Emi.monthlyEMI res * 240) = true
    /\ (Emi.totalInterest res =? Emi.totalPayment res - 500000) = true.
Proof.
  destruct (@C1_conservation float_pow 500000 8.5 240
              eq_refl eq_refl eq_refl) as (res & E & _ & _ & _ & _ & _ & Q).
  exists res. split; [exact E|].
  apply Q; try reflexivity.
  right. repeat split.
Defined.

(** C1 fails as stated.  For 1000 at 10% over 100000 months the power
    [(1 + 10 / 12 / 100) ^ 100000] exceeds every double, so [Math.pow]
    returns Infinity, the instalment is Infinity / Infinity, and the three
    amounts are NaN: neither equation holds under the equality of the
    language.  The same happens at the least positive rate, whose monthly
    rate rounds to 0, when [Math.pow] returns 1 for the base 1: the
    instalment is 0 / 0. *)
Lemma C1_counterexample :
  (forall pow : float -> float -> float,
      pow (1 + 10 / 12 / 100) 100000 = infinity ->
      exists res,
        Emi.calculateEMI (binary64 pow) 1000 10 100000 = Returned res
        /\ (Emi.totalPayment res =? Emi.monthlyEMI res * 100000) = false
        /\ (Emi.totalInterest res =? Emi.totalPayment res - 1000) = false)
  /\ (forall pow : float -> float -> float,
      pow (1 + 0x1p-1074 / 12 / 100) 12 = 1 ->
      exists res,
        Emi.calculateEMI (binary64 pow) 1000 0x1p-1074 12 = Returned res
        /\ (Emi.totalPayment res =? Emi.monthlyEMI res * 12) = false
        /\ (Emi.totalInterest res =? Emi.totalPayment res - 1000) = false)
  /\ float_pow (1 + 10 / 12 / 100) 100000 = infinity
  /\ float_pow (1 + 0x1p-1074 / 12 / 100) 12 = 1
  /\ ~ (forall (pow : float -> float -> float) (p r n : float)
               (res : Emi.EMIResult float),
          (0 <? p) = true -> (0 <=? r) = true -> (0 <? n) = true ->
          (p <? infinity) = true -> (r <? infinity) = true ->
          (n <? infinity) = true ->
          Emi.calculateEMI (binary64 pow) p r n = Returned res ->
          (Emi.totalPayment res =? Emi.monthlyEMI res * n) = true
          /\ (Emi.totalInterest res =? Emi.totalPayment res - p) = true).
Proof.
  assert (A : forall pow : float -> float -> float,
             pow (1 + 10 / 12 / 100) 100000 = infinity ->
             exists res,
               Emi.calculateEMI (binary64 pow) 1000 10 100000 = Returned res
               /\ (Emi.totalPayment res =? Emi.monthlyEMI res * 100000) = false
               /\ (Emi.totalInterest res =? Emi.totalPayment res - 1000)
                  = false).
  { intros pow H.
    destruct (@positive_rate_instalment pow 1000 10 100000
                eq_refl eq_refl eq_refl) as (res & E & M & TP & TI).
    exists res. split; [exact E|].
    rewrite H in M. rewrite TI, TP, M. split; reflexivity. }
  assert (O : float_pow (1 + 10 / 12 / 100) 100000 = infinity)
    by (vm_compute; reflexivity).
  split; [exact A|]. split; [|split; [exact O|split; [reflexivity|]]].
  - intros pow H.
    destruct (@positive_rate_instalment pow 1000 0x1p-1074 12
                eq_refl eq_refl eq_refl) as (res & E & M & TP & TI).
    exists res. split; [exact E|].
    rewrite H in M. rewrite TI, TP, M. split; reflexivity.
  - intros H.
    destruct (A float_pow O) as (res & E & F & _).
    destruct (H float_pow 1000 10 100000 res
                eq_refl eq_refl eq_refl eq_refl eq_refl eq_refl E) as [T _].
    rewrite F in T. discriminate T.
Qed.

(** The scenario of the specification: a zero principal. *)
Lemma C2_invalid_input_throws_witness :
  Emi.calculateEMI (binary64 float_pow) 0 5 12
  = Thrown (Error Emi.invalid_input_message).
Proof.
  apply (@C2_invalid_input_throws float_pow 0 5 12). left. reflexivity.
Defined.

(** C2 fails as stated.  A zero principal and a zero tenure throw the very
    same error, so no reading of the error can name the field at fault:
    there is no [field_of] that, on every failing call, picks a field whose
    precondition the arguments break. *)
Lemma C2_counterexample :
  Emi.calculateEMI (binary64 float_pow) 0 5 12
  = Thrown (Error Emi.invalid_input_message)
  /\ Emi.calculateEMI (binary64 float_pow) 1 5 0
     = Thrown (Error Emi.invalid_input_message)
  /\ ~ (exists (pow : float -> float -> float) (field_of : JSError -> Emi.Field),
         forall (p r n : float) (e : JSError),
           Emi.calculateEMI (binary64 pow) p r n = Thrown e ->
           Emi.violated (binary64 pow) (field_of e) p r n = true).
Proof.
  split; [reflexivity|]. split; [reflexivity|].
  intros (pow & field_of & H).
  pose proof (H 0 5 12 _ (@guard_throws pow 0 5 12 (or_introl eq_refl))) as A.
  pose proof (H 1 5 0 _ (@guard_throws pow 1 5 0 (or_intror (or_introl eq_refl))))
    as B.
  destruct (field_of (Error Emi.invalid_input_message));
    simpl in A, B; discriminate.
Qed.

(** The scenario of the specification: 100000 at 0% over 10 months. *)
Lemma C5_zero_rate_linear_witness :
  exists res,
    Emi.calculateEMI (binary64 float_pow) 100000 0 10 = Returned res
    /\ Emi.monthlyEMI res = 100000 / 10.
Proof. apply (@C5_zero_rate_linear float_pow 100000 10); reflexivity. Defined.

(** Half a month is accepted. *)
Lemma C9_throws_iff_guard_witness :
  exists res,
    Emi.calculateEMI (binary64 float_pow) 1000 0 0.5 = Returned res
    /\ Emi.tenureMonths res = 0.5.
Proof.
  apply (proj2 (C9_throws_iff_guard float_pow) 1000 0); reflexivity.
Defined.

Lemma C10_inputs_echoed_witness :
  exists res,
    Emi.calculateEMI (binary64 float_pow) 500000 8.5 240 = Returned res
    /\ Emi.principal res = 500000
    /\ Emi.tenureMonths res = 240.
Proof. apply (@C10_inputs_echoed float_pow 500000 8.5 240); reflexivity. Defined.

(** C6 fails as stated.  The rates 7 and 7.000000000000001 (the next
    double after 7) have the same monthly rate once divided by 12 and by
    100, so whatever [Math.pow] computes the two instalments are the same
    double, and the first is not below the second: no [Math.pow] makes the
    instalment strictly increasing.  Nor is it increasing in the wide sense
    when [Math.pow] returns its base at exponent 1: for 100000 over one
    month the instalment at 7.0000000000001616 is 100583.33333333523, and
    at the next double, whose monthly rate is higher, it is
    100583.33333333147. *)
Lemma C6_counterexample :
  (7 <? 0x1.c000000000001p+2) = true
  /\ 7 / 12 / 100 = 0x1.c000000000001p+2 / 12 / 100
  /\ ~ (exists pow : float -> float -> float,
         forall (p n r1 r2 : float) (e1 e2 : Emi.EMIResult float),
           (0 <? p) = true -> (0 <? n) = true ->
           (0 <=? r1) = true -> (r1 <? r2) = true ->
           Emi.calculateEMI (binary64 pow) p r1 n = Returned e1 ->
           Emi.calculateEMI (binary64 pow) p r2 n = Returned e2 ->
           (Emi.monthlyEMI e1 <? Emi.monthlyEMI e2) = true)
  /\ (0x1.c0000000000b6p+2 <? 0x1.c0000000000b7p+2) = true
  /\ (0x1.c0000000000b6p+2 / 12 / 100 <? 0x1.c0000000000b7p+2 / 12 / 100)
     = true
  /\ ~ (exists pow : float -> float -> float,
         (forall x : float, pow x 1 = x)
         /\ forall (p n r1 r2 : float) (e1 e2 : Emi.EMIResult float),
              (0 <? p) = true -> (0 <? n) = true ->
              (0 <=? r1) = true -> (r1 <? r2) = true ->
              Emi.calculateEMI (binary64 pow) p r1 n = Returned e1 ->
              Emi.calculateEMI (binary64 pow) p r2 n = Returned e2 ->
              (Emi.monthlyEMI e1 <=? Emi.monthlyEMI e2) = true).
Proof.
  split; [reflexivity|]. split; [reflexivity|]. split; [|split; [|split]].
  - intros (pow & H).
    destruct (@calculateEMI_valid _ (binary64 pow) _ 100000 7 12
                eq_refl eq_refl eq_refl) as (res & E & _).
    assert (E' : Emi.calculateEMI (binary64 pow) 100000 0x1.c000000000001p+2 12
                 = Returned res).
    { rewrite <- E. symmetry.
      apply (@same_monthly_rate pow 100000 7 0x1.c000000000001p+2 12);
        reflexivity. }
    pose proof (H 100000 12 7 0x1.c000000000001p+2 res res
                  eq_refl eq_refl eq_refl eq_refl E E') as L.
    rewrite float_lt_irrefl in L. discriminate.
  - reflexivity.
  - reflexivity.
  - intros (pow & X & H).
    destruct (@fall_above_seven pow (X _) (X _))
      as (e1 & e2 & E1 & E2 & _ & F).
    pose proof (H 100000 1 0x1.c0000000000b6p+2 0x1.c0000000000b7p+2 e1 e2
                  eq_refl eq_refl eq_refl eq_refl E1 E2) as L.
    rewrite (float_lt_excludes_le F) in L. discriminate L.
Qed.

(** With a [Math.pow] that multiplies, the two runs of the amended claim:
    the tie at 7 and the fall just above it. *)
Lemma C6_rate_monotonicity_witness :
  Emi.calculateEMI (binary64 float_pow) 100000 7 12
  = Emi.calculateEMI (binary64 float_pow) 100000 0x1.c000000000001p+2 12
  /\ exists e1 e2,
       Emi.calculateEMI (binary64 float_pow) 100000 0x1.c0000000000b6p+2 1
       = Returned e1
       /\ Emi.calculateEMI (binary64 float_pow) 100000 0x1.c0000000000b7p+2 1
          = Returned e2
       /\ (0x1.c0000000000b6p+2 <? 0x1.c0000000000b7p+2) = true
       /\ (Emi.monthlyEMI e2 <? Emi.monthlyEMI e1) = true.
Proof.
  destruct (C6_rate_monotonicity float_pow) as (S & _ & F).
  split.
  - apply S; reflexivity.
  - apply F; reflexivity.
Defined.



End Runs.

(** ** The history log *)

Section HistoryLog.
Context {num : Type}.
Import History.

#[local] Abbreviation value := (JSValue num).
#[local] Abbreviation call := (EntryFields num * Surroundings num)%type.

Lemma firstn_app_firstn (A : Type) (n : nat) (l m : list A) :
  firstn n (l ++ firstn n m) = firstn n (l ++ m).
Proof.
  rewrite !firstn_app, firstn_firstn.
  rewrite (Nat.min_l (n - List.length l) n) by lia. reflexivity.
Qed.

Lemma addEntry_log (entry : EntryFields num) (w : Surroundings num)
    (prev : list value) :
  snd (addEntry entry w prev) = firstn 50 (newEntry entry w :: prev).
Proof. reflexivity. Qed.

Lemma addAll_cons (c : call) (cs : list call) (prev : list value) :
  addAll prev (c :: cs) = addAll (firstn 50 (created c :: prev)) cs.
Proof. reflexivity. Qed.

(** After at least one call the log is the newest-first list of what was
    created, followed by the old log, cut at 50. *)
Lemma addAll_firstn (calls : list call) (prev : list value) :
  calls <> [] ->
  addAll prev calls = firstn 50 (rev (map created calls) ++ prev).
Proof.
  revert prev. induction calls as [| c cs IH]; intros prev NE.
  - contradiction.
  - rewrite addAll_cons.
    destruct cs as [| c' cs'].
    + reflexivity.
    + rewrite IH by discriminate.
      rewrite firstn_app_firstn.
      change (map created (c :: c' :: cs'))
        with (created c :: map created (c' :: cs')).
      change (rev (created c :: map created (c' :: cs')))
        with (rev (map created (c' :: cs')) ++ [created c]).
      rewrite <- app_assoc. reflexivity.
Qed.



Lemma addEntry_value (entry : EntryFields num) (w : Surroundings num)
    (prev : list value) :
  addEntry entry w prev = (JUndefined, newEntry entry w :: firstn 49 prev).
Proof. reflexivity. Qed.

Lemma getEntry_head (entry : EntryFields num) (w : Surroundings num)
    (rest : list value) :
  getEntry (new_id w) (newEntry entry w :: rest) = Returned (newEntry entry w).
Proof.
  unfold getEntry.
  change (get_member (newEntry entry w) "id")
    with (Returned (JString (new_id w)) : outcome value).
  unfold strict_equal_string. rewrite String.eqb_refl. reflexivity.
Qed.


(** C4, as amended.  [addEntry] puts the entry it builds at the head of the
    log, in front of the 49 newest entries of the old log, and returns
    nothing ([undefined]).  The entry carries the six numbers it was given,
    the identifier built from the clock reading and the random text, and the
    second clock reading as timestamp; [getEntry] on that identifier returns
    this very entry. *)
Theorem C4_add_then_get (entry : EntryFields num) (w : Surroundings num)
    (prev : list value) :
  let e := newEntry entry w in
  addEntry entry w prev = (JUndefined, e :: firstn 49 prev)
  /\ getEntry (new_id w) (snd (addEntry entry w prev)) = Returned e
  /\ get_member e "id" = Returned (JString (new_id w))
  /\ get_member e "timestamp" = Returned (JNumber (now w))
  /\ get_member e "principal" = Returned (JNumber (principal entry))
  /\ get_member e "annualInterestRate"
     = Returned (JNumber (annualInterestRate entry))
  /\ get_member e "tenureMonths" = Returned (JNumber (tenureMonths entry))
  /\ get_member e "monthlyEMI" = Returned (JNumber (monthlyEMI entry))
  /\ get_member e "totalInterest" = Returned (JNumber (totalInterest entry))
  /\ get_member e "totalPayment" = Returned (JNumber (totalPayment entry)).
Proof.
  intros e. split; [apply addEntry_value|].
  split; [rewrite addEntry_value; apply getEntry_head|].
  repeat split.
Qed.

(** C8, as amended.  The mount effect never fails.  The log starts empty
    when reading the slot throws, when the slot is absent or holds the empty
    text, when [JSON.parse] throws, and when the parsed value has no array
    under [entries]; otherwise the log is that array as it stands, its
    elements unexamined. *)
Theorem C8_initialize (JSON_parse : string -> outcome value) :
  (forall e, initialize JSON_parse (Thrown e) = [])
  /\ initialize JSON_parse (Returned None) = []
  /\ initialize JSON_parse (Returned (Some ""%string)) = []
  /\ (forall stored e,
        JSON_parse stored = Thrown e ->
        initialize JSON_parse (Returned (Some stored)) = [])
  /\ (forall stored parsed,
        JSON_parse stored = Returned parsed ->
        (forall elements,
            get_member parsed "entries" <> Returned (JArray elements)) ->
        initialize JSON_parse (Returned (Some stored)) = [])
  /\ (forall stored parsed elements,
        stored <> ""%string ->
        JSON_parse stored = Returned parsed ->
        get_member parsed "entries" = Returned (JArray elements) ->
        initialize JSON_parse (Returned (Some stored)) = elements).
Proof.
  unfold initialize, loadEffect.
  split; [reflexivity|]. split; [reflexivity|]. split; [reflexivity|].
  split; [|split].
  - intros stored e ->. destruct (String.eqb stored ""); reflexivity.
  - intros stored parsed -> NA.
    destruct (String.eqb stored ""); [reflexivity|].
    destruct (get_member parsed "entries") as [entries | e]; [|reflexivity].
    destruct entries; try reflexivity.
    exfalso. exact (NA elements eq_refl).
  - intros stored parsed elements NE -> ->.
    destruct (String.eqb_spec stored ""); [contradiction|reflexivity].
Qed.
End HistoryLog.

(** ** Concrete runs of the history log *)

Section HistoryRuns.
Import History.

(** The first entry added is gone after the 51st. *)
Example run_51_entries :
  let log := addAll [] (Samples.calls 51) in
  List.length log = 50
  /\ getEntry (new_id (Samples.surroundings 0)) log = Returned JUndefined
  /\ getEntry (new_id (Samples.surroundings 1)) log
     = Returned (newEntry Samples.fields (Samples.surroundings 1)).
Proof. vm_compute. repeat split. Qed.

(** A log that holds [null] makes [getEntry] throw. *)
Example run_getEntry_on_null :
  getEntry "1700000000000-4fzyo82mv" [JNull : JSValue float] = Thrown TypeError.
Proof. reflexivity. Qed.



(** C4 fails as stated: the call of [addEntry] evaluates to [undefined],
    not to the entry it created. *)
Lemma C4_counterexample :
  fst (addEntry Samples.fields (Samples.surroundings 0) []) = JUndefined
  /\ fst (addEntry Samples.fields (Samples.surroundings 0) [])
     <> newEntry Samples.fields (Samples.surroundings 0).
Proof. split; [reflexivity | discriminate]. Qed.

(** C8 fails as stated.  A stored text whose [entries] is the array
    [[null]] is no sequence of well-formed entries, and the log starts as
    [[null]], not empty. *)
Lemma C8_counterexample :
  spec_well_formed_log [JNull : JSValue float] = false
  /\ (forall JSON_parse : string -> outcome (JSValue float),
        JSON_parse Samples.corrupt_payload = Returned Samples.corrupt_parsed ->
        initialize JSON_parse (Returned (Some Samples.corrupt_payload))
        = [JNull])
  /\ ~ (forall (JSON_parse : string -> outcome (JSValue float))
               (stored : string) (parsed : JSValue float)
               (elements : list (JSValue float)),
          JSON_parse stored = Returned parsed ->
          get_member parsed "entries" = Returned (JArray elements) ->
          spec_well_formed_log elements = false ->
          initialize JSON_parse (Returned (Some stored)) = []).
Proof.
  split; [reflexivity|]. split.
  - intros JSON_parse P. unfold initialize, loadEffect.
    rewrite P. reflexivity.
  - intros H.
    specialize (H (fun _ => Returned Samples.corrupt_parsed)
                  Samples.corrupt_payload Samples.corrupt_parsed [JNull]
                  eq_refl eq_refl eq_refl).
    discriminate H.
Qed.

Lemma C8_initialize_witness :
  initialize (fun _ => Returned Samples.corrupt_parsed)
    (Returned (Some Samples.corrupt_payload))
  = [JNull].
Proof.
  apply (proj2 (proj2 (proj2 (proj2 (proj2
           (C8_initialize (fun _ => Returned Samples.corrupt_parsed))))))
           Samples.corrupt_payload Samples.corrupt_parsed).
  - discriminate.
  - reflexivity.
  - reflexivity.
Defined.

End HistoryRuns.

(** * Further properties *)

(** ** The form and the calculator *)

Section FormProperties.
Import History Component.
Variable parseFloat : string -> float.
Variable pow : float -> float -> float.
Variable Number_toString : float -> string.
Local Open Scope float_scope.

#[local] Abbreviation validate := (validateInputs parseFloat).
#[local] Abbreviation calculate := (handleCalculate parseFloat pow).
#[local] Abbreviation load := (handleLoadEntry pow Number_toString).

(** What the three numbers of an accepted form satisfy. *)
Lemma accepted_numbers (st : State) :
  snd (validate st) = true ->
  (parseFloat (principal st) <=? 0) = false
  /\ (parseFloat (interestRate st) <? 0) = false
  /\ is_nan (parseFloat (tenure st)) = false
  /\ (parseFloat (tenure st) <=? 0) = false.
Proof.
  unfold validateInputs, Form.tenure_rejected. cbn [snd]. intros H.
  apply andb_prop in H. destruct H as [H Ht].
  apply andb_prop in H. destruct H as [Hp Hr].
  apply negb_true_iff in Hp, Hr, Ht.
  apply orb_false_elim in Hp, Hr, Ht.
  destruct Hp as [Hp Hp0], Hr as [Hr Hr0], Ht as [Ht Ht0].
  apply orb_false_elim in Ht. destruct Ht as [_ Ht].
  auto.
Qed.

(** The months handed to the calculator are positive in either unit. *)
Lemma accepted_tenure_positive (st : State) :
  snd (validate st) = true ->
  (Form.tenureInMonths (tenureUnit st) (parseFloat (tenure st)) <=? 0) = false.
Proof.
  intros H. destruct (accepted_numbers st H) as (_ & _ & N & P).
  destruct (tenureUnit st); cbn [Form.tenureInMonths].
  - apply times_twelve_positive; assumption.
  - exact P.
Qed.

Lemma accepted_inputs_return (st : State) :
  snd (validate st) = true ->
  exists emiResult,
    Emi.calculateEMI (binary64 pow) (parseFloat (principal st))
      (parseFloat (interestRate st))
      (Form.tenureInMonths (tenureUnit st) (parseFloat (tenure st)))
    = Returned emiResult.
Proof.
  intros H. destruct (accepted_numbers st H) as (P & R & _ & _).
  pose proof (accepted_tenure_positive st H) as T.
  pose proof (calculateEMI_throws (binary64 pow) (parseFloat (principal st))
                (parseFloat (interestRate st))
                (Form.tenureInMonths (tenureUnit st) (parseFloat (tenure st))))
    as G.
  change (throws
            (Emi.calculateEMI (binary64 pow) (parseFloat (principal st))
               (parseFloat (interestRate st))
               (Form.tenureInMonths (tenureUnit st) (parseFloat (tenure st))))
          = (parseFloat (principal st) <=? 0)
            || (Form.tenureInMonths (tenureUnit st) (parseFloat (tenure st)) <=? 0)
            || (parseFloat (interestRate st) <? 0)) in G.
  rewrite P, T, R in G.
  destruct (Emi.calculateEMI _ _ _ _) as [res | e]; [eauto | discriminate G].
Qed.

(** The form shows an error message exactly when [validateInputs] refuses
    the inputs. *)
Theorem validateInputs_errors_iff (st : State) :
  snd (validate st) = true <-> fst (validate st) = Errors.empty.
Proof.
  unfold validateInputs. cbn [fst snd].
  set (pb := (String.eqb (principal st) "" || _ || _)%bool).
  set (rb := (String.eqb (interestRate st) "" || _ || _)%bool).
  set (tb := Form.tenure_rejected _ _).
  unfold Errors.empty.
  destruct pb, rb, tb; cbn; split; intros H;
    first [reflexivity | discriminate H].
Qed.

(** [handleCalculate] never throws: whatever the form holds, the inputs that
    pass [validateInputs] also pass the guard of [calculateEMI], in months
    and in years. *)
Theorem handleCalculate_never_throws (w : Surroundings float) (st : State)
    (history : list (JSValue float)) :
  exists st' history', calculate w st history = Returned (st', history').
Proof.
  unfold handleCalculate.
  destruct (validate st) as [newErrors isValid] eqn:V.
  destruct isValid; cbn [negb].
  - assert (H : snd (validate st) = true) by (rewrite V; reflexivity).
    destruct (accepted_inputs_return st H) as (res & ->). eauto.
  - eauto.
Qed.

(** When [validateInputs] refuses the inputs, [handleCalculate] clears the
    result, shows at least one message and leaves the form fields and the
    log as they were: nothing is added to the history. *)
Theorem handleCalculate_refused (w : Surroundings float) (st : State)
    (history : list (JSValue float)) :
  snd (validate st) = false ->
  exists st',
    calculate w st history = Returned (st', history)
    /\ result st' = None
    /\ errors st' = fst (validate st)
    /\ errors st' <> Errors.empty
    /\ principal st' = principal st
    /\ interestRate st' = interestRate st
    /\ tenure st' = tenure st
    /\ tenureUnit st' = tenureUnit st.
Proof.
  intros H. unfold handleCalculate.
  pose proof (validateInputs_errors_iff st) as I.
  destruct (validate st) as [newErrors isValid] eqn:V.
  cbn [fst snd] in *. subst isValid. cbn [negb].
  eexists. split; [reflexivity|]. cbn.
  repeat split; try reflexivity.
  intros E. apply I in E. discriminate E.
Qed.

(** When [validateInputs] accepts the inputs, [handleCalculate] shows the
    record [calculateEMI] returns for the parsed numbers (the tenure in
    months), with no error message, and puts at the head of the log an entry
    with those three inputs and the three outputs of that record, in front
    of the 49 newest older entries. *)
Theorem handleCalculate_accepted (w : Surroundings float) (st : State)
    (history : list (JSValue float)) :
  snd (validate st) = true ->
  let months := Form.tenureInMonths (tenureUnit st) (parseFloat (tenure st)) in
  exists emiResult st',
    Emi.calculateEMI (binary64 pow) (parseFloat (principal st))
      (parseFloat (interestRate st)) months = Returned emiResult
    /\ calculate w st history
       = Returned
           (st',
            newEntry
              {| History.principal := parseFloat (principal st);
                 History.annualInterestRate := parseFloat (interestRate st);
                 History.tenureMonths := months;
                 History.monthlyEMI := Emi.monthlyEMI emiResult;
                 History.totalInterest := Emi.totalInterest emiResult;
                 History.totalPayment := Emi.totalPayment emiResult |} w
            :: firstn 49 history)
    /\ result st' = Some emiResult
    /\ errors st' = Errors.empty.
Proof.
  intros H months.
  destruct (accepted_inputs_return st H) as (res & E).
  pose proof (proj1 (validateInputs_errors_iff st) H) as I.
  unfold handleCalculate.
  destruct (validate st) as [newErrors isValid] eqn:V.
  cbn [fst snd] in *. subst isValid newErrors. cbn [negb].
  fold months. fold months in E. rewrite E.
  exists res. eexists. split; [reflexivity|].
  split; [reflexivity|]. split; reflexivity.
Qed.
End FormProperties.

(** ** Looking entries up *)

Section Lookup.
Context {num : Type}.
Import History.

#[local] Abbreviation value := (JSValue num).

Lemma strict_equal_string_true (v : value) (id : string) :
  strict_equal_string v id = true <-> v = JString id.
Proof.
  destruct v; simpl; split; intros H; try discriminate H.
  - apply String.eqb_eq in H. congruence.
  - injection H as ->. apply String.eqb_refl.
Qed.

(** An entry [getEntry] returns is in the log and has the [id] asked for. *)
Lemma getEntry_found (id : string) (history : list value) (v : value) :
  getEntry id history = Returned v ->
  v = JUndefined
  \/ (In v history /\ get_member v "id" = Returned (JString id)).
Proof.
  induction history as [| entry rest IH]; simpl; intros H.
  - injection H as <-. auto.
  - destruct (get_member entry "id") as [x | e] eqn:G; [|discriminate H].
    destruct (strict_equal_string x id) eqn:S.
    + injection H as <-. apply strict_equal_string_true in S. subst x. auto.
    + destruct (IH H) as [-> | [I M]]; auto.
Qed.

Lemma getEntry_returns (id : string) (history : list value) :
  (forall u, In u history -> u <> JNull /\ u <> JUndefined) ->
  exists v, getEntry id history = Returned v.
Proof.
  induction history as [| entry rest IH]; simpl; intros NN.
  - eauto.
  - destruct (NN entry (or_introl eq_refl)) as [N1 N2].
    destruct (get_member entry "id") as [x | e] eqn:G.
    + destruct (strict_equal_string x id); [eauto|].
      apply IH. intros u Hu. apply NN. auto.
    + destruct entry; simpl in G; try discriminate G; contradiction.
Qed.

(** [getEntry] returns [undefined] only when no entry has the [id] asked
    for. *)
Lemma getEntry_missing (id : string) (history : list value) :
  (forall u, In u history -> u <> JNull /\ u <> JUndefined) ->
  getEntry id history = Returned JUndefined ->
  forall u, In u history -> get_member u "id" <> Returned (JString id).
Proof.
  induction history as [| entry rest IH]; simpl; intros NN H u Hu.
  - contradiction.
  - destruct (get_member entry "id") as [x | e] eqn:G; [|discriminate H].
    destruct (strict_equal_string x id) eqn:S.
    + injection H as ->. destruct (NN _ (or_introl eq_refl)). contradiction.
    + destruct Hu as [<- | Hu].
      * rewrite G. intros E. injection E as ->.
        rewrite (proj2 (strict_equal_string_true (JString id) id) eq_refl)
          in S. discriminate S.
      * apply IH; auto.
Qed.

(** [getEntry] returns the first entry whose [id] is the one asked for:
    when it returns an entry, the log splits into newer entries, none of
    which has that [id], the entry, and older entries. *)
Theorem getEntry_first_match (id : string) (history : list value) (v : value) :
  getEntry id history = Returned v -> v <> JUndefined ->
  exists newer older,
    history = newer ++ v :: older
    /\ get_member v "id" = Returned (JString id)
    /\ (forall u, In u newer -> get_member u "id" <> Returned (JString id)).
Proof.
  induction history as [| entry rest IH]; simpl; intros H NU.
  - injection H as <-. contradiction.
  - destruct (get_member entry "id") as [x | e] eqn:G; [|discriminate H].
    destruct (strict_equal_string x id) eqn:S.
    + injection H as <-. apply strict_equal_string_true in S. subst x.
      exists [], rest. repeat split; auto.
    + destruct (IH H NU) as (newer & older & -> & M & N).
      exists (entry :: newer), older. repeat split; auto.
      intros u [<- | I]; [|auto].
      rewrite G. intros E. injection E as ->.
      rewrite (proj2 (strict_equal_string_true (JString id) id) eq_refl) in S.
      discriminate S.
Qed.

(** On a log that holds neither [null] nor [undefined], [getEntry] never
    throws, and it returns [undefined] exactly when no entry has the [id]
    asked for. *)
Theorem getEntry_total (id : string) (history : list value) :
  (forall u, In u history -> u <> JNull /\ u <> JUndefined) ->
  exists v,
    getEntry id history = Returned v
    /\ (v = JUndefined
        <-> forall u, In u history ->
                      get_member u "id" <> Returned (JString id)).
Proof.
  induction history as [| entry rest IH]; simpl; intros NN.
  - exists JUndefined. split; [reflexivity|]. split; auto.
  - destruct (NN entry (or_introl eq_refl)) as [N1 N2].
    destruct IH as (v & E & I); [intros u Hu; apply NN; auto|].
    destruct (get_member entry "id") as [x | e] eqn:G.
    2:{ destruct entry; simpl in G; try discriminate G; contradiction. }
    destruct (strict_equal_string x id) eqn:S.
    + exists entry. split; [reflexivity|]. split.
      * intros ->. contradiction.
      * intros H. exfalso. apply (H entry (or_introl eq_refl)).
        apply strict_equal_string_true in S. congruence.
    + exists v. split; [exact E|]. rewrite I. split.
      * intros H u [<- | Hu]; [|auto].
        rewrite G. intros Eq. injection Eq as ->.
        rewrite (proj2 (strict_equal_string_true (JString id) id) eq_refl)
          in S. discriminate S.
      * intros H u Hu. apply H. auto.
Qed.

(** A [null] in the log makes [getEntry] throw a [TypeError] as soon as the
    search reaches it, that is unless a newer entry has the [id] asked
    for. *)
Theorem getEntry_throws_at_null (id : string) (newer older : list value) :
  (forall u, In u newer ->
             exists x, get_member u "id" = Returned x /\ x <> JString id) ->
  getEntry id (newer ++ JNull :: older) = Thrown TypeError.
Proof.
  induction newer as [| u newer IH]; intros H; simpl.
  - reflexivity.
  - destruct (H u (or_introl eq_refl)) as (x & -> & NE).
    destruct (strict_equal_string x id) eqn:S.
    + apply strict_equal_string_true in S. contradiction.
    + apply IH. intros u' Hu'. apply H. right. exact Hu'.
Qed.

(** Adding an entry does not disturb the lookup of any other [id] among
    the 49 newest entries; on a log of at most 49 entries every other lookup
    is as before. *)
Theorem getEntry_after_addEntry (id : string) (entry : EntryFields num)
    (w : Surroundings num) (prev : list value) :
  id <> new_id w ->
  getEntry id (snd (addEntry entry w prev)) = getEntry id (firstn 49 prev)
  /\ (List.length prev <= 49 ->
      getEntry id (snd (addEntry entry w prev)) = getEntry id prev).
Proof.
  intros NE.
  assert (E : getEntry id (snd (addEntry entry w prev))
              = getEntry id (firstn 49 prev)).
  { rewrite addEntry_value. cbn [snd]. unfold getEntry at 1.
    change (get_member (newEntry entry w) "id")
      with (Returned (JString (new_id w)) : outcome value).
    unfold strict_equal_string.
    destruct (String.eqb_spec (new_id w) id) as [Eq | _];
      [congruence | reflexivity]. }
  split; [exact E|].
  intros L. rewrite E, firstn_all2 by exact L. reflexivity.
Qed.
End Lookup.

(** ** What the log holds *)

Section LogContents.
Context {num : Type}.
Import History.

#[local] Abbreviation value := (JSValue num).
#[local] Abbreviation call := (EntryFields num * Surroundings num)%type.

(** As long as the log has room nothing is dropped: when the old log and
    the new calls together are at most 50, the log afterwards is every
    created entry, newest first, followed by the whole old log. *)
Theorem addAll_within_bound (prev : list value) (calls : list call) :
  List.length prev + List.length calls <= 50 ->
  addAll prev calls = rev (map created calls) ++ prev.
Proof.
  intros L. destruct calls as [| c cs].
  - reflexivity.
  - rewrite addAll_firstn by discriminate.
    apply firstn_all2.
    rewrite length_app, length_rev, length_map. lia.
Qed.

(** On a full log [addEntry] drops exactly the oldest entry. *)
Theorem addEntry_evicts_oldest (entry : EntryFields num)
    (w : Surroundings num) (prev : list value) :
  List.length prev = 50 ->
  snd (addEntry entry w prev) = newEntry entry w :: removelast prev.
Proof.
  intros L. rewrite addEntry_value. cbn [snd].
  rewrite removelast_firstn_len, L. reflexivity.
Qed.

Lemma newEntry_well_formed (entry : EntryFields num) (w : Surroundings num) :
  spec_well_formed_entry (newEntry entry w) = true.
Proof. reflexivity. Qed.

Lemma forallb_firstn (A : Type) (f : A -> bool) (n : nat) (l : list A) :
  forallb f l = true -> forallb f (firstn n l) = true.
Proof.
  revert n. induction l as [| a l IH]; intros [| n] H; simpl; auto.
  simpl in H. apply andb_prop in H. destruct H as [-> H]. simpl. auto.
Qed.

Lemma step_well_formed (h : list value) (o : operation num) :
  spec_well_formed_log h = true -> spec_well_formed_log (step h o) = true.
Proof.
  intros W. destruct o as [entry w | | id].
  - unfold step. rewrite addEntry_log. apply forallb_firstn.
    simpl forallb. change (spec_well_formed_entry (newEntry entry w))
      with true. exact W.
  - reflexivity.
  - exact W.
Qed.

(** Every entry the hook itself puts in the log has the layout of a
    [HistoryEntry]: a log that starts well formed (the empty log does) stays
    well formed under every run of [addEntry], [clearHistory] and
    [getEntry], and on such a log [getEntry] never throws. *)
Theorem run_well_formed (h : list value) (ops : list (operation num)) :
  spec_well_formed_log h = true ->
  spec_well_formed_log (run h ops) = true
  /\ forall id, exists v, getEntry id (run h ops) = Returned v.
Proof.
  intros W.
  assert (R : spec_well_formed_log (run h ops) = true).
  { revert h W. induction ops as [| o ops IH]; intros h W; simpl.
    - exact W.
    - apply IH, step_well_formed, W. }
  split; [exact R|].
  intros id.
  apply getEntry_returns.
  intros u Hu. unfold spec_well_formed_log in R.
  rewrite forallb_forall in R. specialize (R u Hu).
  split; intros ->; discriminate R.
Qed.
End LogContents.

(** ** Identifiers *)

Section Identifiers.
Import History.

Lemma append_dash_injective (a b s t : string) :
  (forall c, In c (list_ascii_of_string a) -> c <> dash) ->
  (forall c, In c (list_ascii_of_string b) -> c <> dash) ->
  (a ++ String dash s = b ++ String dash t)%string ->
  a = b /\ s = t.
Proof.
  revert b. induction a as [| x a IH]; intros [| y b] Ha Hb E; simpl in *.
  - injection E as ->. auto.
  - injection E as <- _. exfalso. apply (Hb dash); auto.
  - injection E as -> _. exfalso. apply (Ha dash); auto.
  - injection E as -> E.
    destruct (IH b) as [-> ->]; auto.
Qed.

(** Two calls of [addEntry] whose clock readings print differently get
    different identifiers, whatever the random parts: the clock text holds
    no dash, so the identifier determines it. *)
Theorem new_id_distinct (num : Type) (w1 w2 : Surroundings num) :
  (forall c, In c (list_ascii_of_string (now_text w1)) -> c <> dash) ->
  (forall c, In c (list_ascii_of_string (now_text w2)) -> c <> dash) ->
  now_text w1 <> now_text w2 ->
  new_id w1 <> new_id w2.
Proof.
  intros H1 H2 NE E. apply NE.
  unfold new_id in E.
  destruct (append_dash_injective _ _ _ _ H1 H2 E) as [-> _]. reflexivity.
Qed.

(** [addEntry] has no check against the identifiers already in the log:
    two calls with the same clock text and the same first nine random
    characters give the same identifier, and [getEntry] then only ever
    returns the newer of the two entries. *)
Theorem same_id_shadows (num : Type) (e1 e2 : EntryFields num)
    (w1 w2 : Surroundings num) (prev : list (JSValue num)) :
  now_text w1 = now_text w2 ->
  substr 2 9 (random_text w1) = substr 2 9 (random_text w2) ->
  let log := snd (addEntry e2 w2 (snd (addEntry e1 w1 prev))) in
  new_id w1 = new_id w2
  /\ getEntry (new_id w1) log = Returned (newEntry e2 w2).
Proof.
  intros T R log.
  assert (I : new_id w1 = new_id w2) by (unfold new_id; rewrite T, R; reflexivity).
  split; [exact I|].
  unfold log. rewrite (addEntry_value e2 w2). cbn [snd].
  rewrite I. apply getEntry_head.
Qed.
End Identifiers.

(** ** The stored copy of the log *)

Section StoredCopy.
Context {num : Type}.
Import History Persistence.
Variable JSON_parse : string -> outcome (JSValue num).
Variable JSON_stringify : JSValue num -> string.
Variable setItem_accepts : string -> bool.

#[local] Abbreviation hook := (Hook num).
#[local] Abbreviation persist := (persistEffect JSON_stringify setItem_accepts).
#[local] Abbreviation do := (perform JSON_stringify setItem_accepts).
#[local] Abbreviation sessions :=
  (session JSON_parse JSON_stringify setItem_accepts).
#[local] Abbreviation text_of h := (JSON_stringify (HistoryState (history h))).

Lemma persist_history (h : hook) : history (persist h) = history h.
Proof.
  unfold persistEffect.
  destruct (isLoading h); [reflexivity|].
  destruct (setItem_accepts _); reflexivity.
Qed.

Lemma persist_isLoading (h : hook) : isLoading (persist h) = isLoading h.
Proof.
  unfold persistEffect.
  destruct (isLoading h) eqn:L; [exact L|].
  destruct (setItem_accepts _); [reflexivity | exact L].
Qed.

Lemma persist_item (h : hook) :
  isLoading h = false ->
  setItem_accepts (text_of h) = true ->
  item (persist h) = Some (text_of (persist h)).
Proof.
  intros L A. rewrite persist_history.
  unfold persistEffect. rewrite L, A. reflexivity.
Qed.

Lemma perform_history (h : hook) (c : command num) :
  history (do h c) = step (history h) (operation_of c).
Proof.
  destruct c; cbn [perform operation_of step];
    unfold addEntry_rendered, clearHistory_rendered;
    rewrite persist_history; reflexivity.
Qed.

Lemma perform_isLoading (h : hook) (c : command num) :
  isLoading (do h c) = isLoading h.
Proof.
  destruct c; cbn [perform];
    unfold addEntry_rendered, clearHistory_rendered;
    rewrite persist_isLoading; reflexivity.
Qed.

Lemma session_snoc (stored : option string) (cs : list (command num))
    (c : command num) :
  sessions stored (cs ++ [c]) = do (sessions stored cs) c.
Proof. unfold session. rewrite fold_left_app. reflexivity. Qed.

Lemma session_isLoading (stored : option string) (cs : list (command num)) :
  isLoading (sessions stored cs) = false.
Proof.
  induction cs as [| c cs IH] using rev_ind.
  - unfold session, mount. cbn [fold_left]. rewrite persist_isLoading. reflexivity.
  - rewrite session_snoc, perform_isLoading. exact IH.
Qed.

(** A refused write never costs the log in memory anything: whatever
    [setItem] does, the log after a session is the loaded log with the
    operations applied to it. *)
Theorem session_history (stored : option string) (cs : list (command num)) :
  history (sessions stored cs)
  = run (initialize JSON_parse (Returned stored)) (map operation_of cs).
Proof.
  induction cs as [| c cs IH] using rev_ind.
  - unfold session, mount. cbn [fold_left map run]. rewrite persist_history. reflexivity.
  - rewrite session_snoc, perform_history, IH.
    unfold run. rewrite map_app, fold_left_app. reflexivity.
Qed.

Lemma session_item_written (stored : option string) (cs : list (command num)) :
  let h := sessions stored cs in
  setItem_accepts (text_of h) = true ->
  item h = Some (text_of h).
Proof.
  intros h. unfold h. clear h.
  destruct cs as [| c cs _] using rev_ind.
  - unfold session, mount. cbn [fold_left]. intros A.
    rewrite persist_history in A. apply persist_item; [reflexivity | exact A].
  - rewrite session_snoc.
    pose proof (session_isLoading stored cs) as L.
    destruct c as [entry w |]; cbn [perform];
      unfold addEntry_rendered, clearHistory_rendered; intros A;
      rewrite persist_history in A;
      (apply persist_item; [exact L | exact A]).
Qed.

(** [clearHistory] does not leave the storage key absent: the render that
    follows writes the serialisation of an empty log back, and the key is
    absent only when that write is refused.  The log in memory is empty
    either way. *)
Theorem clearHistory_rewrites_item (h : hook) :
  isLoading h = false ->
  history (do h Clear) = []
  /\ item (do h Clear)
     = (if setItem_accepts (JSON_stringify (HistoryState []))
        then Some (JSON_stringify (HistoryState []))
        else None).
Proof.
  intros L. cbn [perform]. unfold clearHistory_rendered, persistEffect.
  cbn [isLoading history clearHistory]. rewrite L.
  destruct (setItem_accepts _); split; reflexivity.
Qed.

(** A stored text that [JSON.parse] rejects does not survive the mount: the
    log starts empty and, when the write is accepted, the text is replaced
    by the serialisation of an empty log. *)
Theorem mount_replaces_corrupt_item (stored : string) (e : JSError) :
  JSON_parse stored = Thrown e ->
  setItem_accepts (JSON_stringify (HistoryState [])) = true ->
  mount JSON_parse JSON_stringify setItem_accepts (Some stored)
  = {| history := []; isLoading := false;
       item := Some (JSON_stringify (HistoryState [])) |}.
Proof.
  intros P A. unfold mount, initialize, loadEffect. rewrite P.
  destruct (String.eqb stored ""); unfold persistEffect;
    cbn [isLoading history]; rewrite A; reflexivity.
Qed.

(** After the mount and after every command, the stored item is the
    serialisation of the log in memory, provided the last write of that
    serialisation was accepted.  The next visit then starts with the log of
    this one: if [JSON.parse] reads the written text back as the object that
    was serialised, mounting on the stored item loads exactly the log the
    session ended with. *)
Theorem session_stored_and_reloaded (stored : option string)
    (cs : list (command num)) :
  let h := sessions stored cs in
  setItem_accepts (text_of h) = true ->
  item h = Some (text_of h)
  /\ (text_of h <> ""%string ->
      JSON_parse (text_of h) = Returned (HistoryState (history h)) ->
      history (mount JSON_parse JSON_stringify setItem_accepts (item h))
      = history h).
Proof.
  intros h A.
  pose proof (session_item_written stored cs A) as I. fold h in I.
  split; [exact I|]. intros NE P.
  rewrite I. unfold mount. rewrite persist_history. cbn [history].
  unfold initialize, loadEffect.
  destruct (String.eqb_spec (text_of h) ""); [contradiction|].
  rewrite P. reflexivity.
Qed.
End StoredCopy.

(** ** Loading an entry back into the form *)

Section LoadEntry.
Import History Component.
Variable parseFloat : string -> float.
Variable pow : float -> float -> float.
Variable Number_toString : float -> string.
Local Open Scope float_scope.

#[local] Abbreviation validate := (validateInputs parseFloat).
#[local] Abbreviation calculate := (handleCalculate parseFloat pow).
#[local] Abbreviation load := (handleLoadEntry pow Number_toString).

(** What [handleLoadEntry] does with an entry whose three inputs are
    numbers: the three texts, the unit and the cleared errors are set
    before [calculateEMI] is called, and stay set when it throws. *)
Lemma load_found (id : string) (st : State) (history : list (JSValue float))
    (fields : list (string * JSValue float)) (p r n : float) :
  getEntry id history = Returned (JObject fields) ->
  own_property fields "principal" = JNumber p ->
  own_property fields "annualInterestRate" = JNumber r ->
  own_property fields "tenureMonths" = JNumber n ->
  load id st history
  = Some match Emi.calculateEMI (binary64 pow) p r n with
         | Thrown e =>
             Failed {| principal := Number_toString p;
                       interestRate := Number_toString r;
                       tenure := Number_toString n;
                       tenureUnit := Form.months;
                       result := result st;
                       errors := Errors.empty |} e
         | Returned emiResult =>
             Completed {| principal := Number_toString p;
                          interestRate := Number_toString r;
                          tenure := Number_toString n;
                          tenureUnit := Form.months;
                          result := Some emiResult;
                          errors := Errors.empty |}
         end.
Proof.
  intros G P R N. unfold handleLoadEntry, number_field. rewrite G.
  cbn [get_member]. rewrite P, R, N. cbn [nullish number_of].
  destruct (Emi.calculateEMI (binary64 pow) p r n); reflexivity.
Qed.

(** Calculating and then loading the new entry shows the same result
    again: after an accepted [handleCalculate], [handleLoadEntry] on the
    identifier of the entry just added returns, whatever the form held in
    between, with the record that was shown, the three inputs printed back
    into the fields, the tenure in months, and no error message. *)
Theorem load_after_calculate (w : Surroundings float) (st st0 : State)
    (history : list (JSValue float)) :
  snd (validate st) = true ->
  let months := Form.tenureInMonths (tenureUnit st) (parseFloat (tenure st)) in
  exists st1 log emiResult,
    calculate w st history = Returned (st1, log)
    /\ result st1 = Some emiResult
    /\ load (new_id w) st0 log
       = Some (Completed
                 {| principal := Number_toString (parseFloat (principal st));
                    interestRate :=
                      Number_toString (parseFloat (interestRate st));
                    tenure := Number_toString months;
                    tenureUnit := Form.months;
                    result := Some emiResult;
                    errors := Errors.empty |}).
Proof.
  intros H months.
  destruct (accepted_inputs_return parseFloat pow st H) as (res & E).
  fold months in E.
  unfold handleCalculate.
  destruct (validate st) as [newErrors isValid] eqn:V.
  cbn [snd] in H. subst isValid. cbn [negb]. fold months. rewrite E.
  do 3 eexists. split; [reflexivity|]. split; [reflexivity|].
  rewrite addEntry_value. cbn [snd].
  erewrite load_found.
  - rewrite E. reflexivity.
  - apply getEntry_head.
  - reflexivity.
  - reflexivity.
  - reflexivity.
Qed.

Lemma well_formed_fields (fields : list (string * JSValue float)) :
  spec_well_formed_entry (JObject fields) = true ->
  exists p r n,
    own_property fields "principal" = JNumber p
    /\ own_property fields "annualInterestRate" = JNumber r
    /\ own_property fields "tenureMonths" = JNumber n.
Proof.
  unfold spec_well_formed_entry. cbn [forallb]. intros H.
  apply andb_prop in H. destruct H as [_ H].
  apply andb_prop in H. destruct H as [_ H].
  apply andb_prop in H. destruct H as [P H].
  apply andb_prop in H. destruct H as [R H].
  apply andb_prop in H. destruct H as [N _].
  destruct (own_property fields "principal"); try discriminate P.
  destruct (own_property fields "annualInterestRate"); try discriminate R.
  destruct (own_property fields "tenureMonths"); try discriminate N.
  do 3 eexists. repeat split; reflexivity.
Qed.

(** On a log of well-formed entries [handleLoadEntry] stays within the
    model and never meets a [TypeError].  When no entry has the identifier,
    the form is left as it was.  Otherwise the first entry with that
    identifier is loaded: its three inputs are printed into the fields, the
    unit becomes months and the error messages are cleared; then the form
    shows the record [calculateEMI] computes from the stored inputs, or,
    when they do not pass its guard, the handler throws the error of
    [calculateEMI] and the result shown before stays. *)
Theorem handleLoadEntry_well_formed (id : string) (st : State)
    (history : list (JSValue float)) :
  spec_well_formed_log history = true ->
  ((forall u, In u history -> get_member u "id" <> Returned (JString id))
   /\ load id st history = Some (Completed st))
  \/ exists fields p r n,
       getEntry id history = Returned (JObject fields)
       /\ In (JObject fields) history
       /\ own_property fields "id" = JString id
       /\ own_property fields "principal" = JNumber p
       /\ own_property fields "annualInterestRate" = JNumber r
       /\ own_property fields "tenureMonths" = JNumber n
       /\ load id st history
          = Some match Emi.calculateEMI (binary64 pow) p r n with
                 | Returned emiResult =>
                     Completed {| principal := Number_toString p;
                                  interestRate := Number_toString r;
                                  tenure := Number_toString n;
                                  tenureUnit := Form.months;
                                  result := Some emiResult;
                                  errors := Errors.empty |}
                 | Thrown _ =>
                     Failed {| principal := Number_toString p;
                               interestRate := Number_toString r;
                               tenure := Number_toString n;
                               tenureUnit := Form.months;
                               result := result st;
                               errors := Errors.empty |}
                            (Error Emi.invalid_input_message)
                 end
       /\ throws (Emi.calculateEMI (binary64 pow) p r n)
          = (p <=? 0) || (n <=? 0) || (r <? 0).
Proof.
  intros W.
  assert (NN : forall u, In u history -> u <> JNull /\ u <> JUndefined).
  { intros u Hu. unfold spec_well_formed_log in W.
    rewrite forallb_forall in W. specialize (W u Hu).
    split; intros ->; discriminate W. }
  destruct (getEntry_returns id history NN) as (v & G).
  destruct (getEntry_found id history G) as [-> | [I M]].
  - left. split.
    + apply getEntry_missing; assumption.
    + unfold handleLoadEntry. rewrite G. reflexivity.
  - right.
    unfold spec_well_formed_log in W. rewrite forallb_forall in W.
    specialize (W v I).
    destruct v as [| | | | | | fields |]; try discriminate W.
    destruct (well_formed_fields fields W) as (p & r & n & P & R & N).
    exists fields, p, r, n.
    split; [exact G|]. split; [exact I|].
    split; [cbn [get_member] in M; congruence|].
    split; [exact P|]. split; [exact R|]. split; [exact N|].
    rewrite (@load_found id st history fields p r n G P R N).
    pose proof (calculateEMI_throws (binary64 pow) p r n) as T.
    change (throws (Emi.calculateEMI (binary64 pow) p r n)
            = (p <=? 0) || (n <=? 0) || (r <? 0)) in T.
    split; [|exact T].
    destruct (Emi.calculateEMI (binary64 pow) p r n) as [res | e] eqn:E;
      [reflexivity|].
    cbn [throws] in T.
    rewrite (@calculateEMI_invalid _ (binary64 pow) p r n (eq_sym T)) in E.
    injection E as <-. reflexivity.
Qed.
End LoadEntry.

(** ** Not a number *)

Section NotANumber.
Variable pow : float -> float -> float.
Local Open Scope float_scope.

Lemma nan_div (y : float) : nan / y = nan.
Proof.
  apply Prim2SF_inj. rewrite div_spec.
  change (Prim2SF nan) with S754_nan. reflexivity.
Qed.

Lemma nan_mul (y : float) : nan * y = nan.
Proof.
  apply Prim2SF_inj. rewrite mul_spec.
  change (Prim2SF nan) with S754_nan. reflexivity.
Qed.

Lemma nan_sub (y : float) : nan - y = nan.
Proof.
  apply Prim2SF_inj. rewrite sub_spec.
  change (Prim2SF nan) with S754_nan. reflexivity.
Qed.

(** The guard of [calculateEMI] lets a NaN principal through (the form's
    own check is what keeps NaN out): with a valid rate and tenure the call
    returns, and the three amounts of the record are NaN. *)
Theorem nan_principal_not_rejected (r n : float) :
  (0 <=? r) = true -> (0 <? n) = true ->
  exists res,
    Emi.calculateEMI (binary64 pow) nan r n = Returned res
    /\ Emi.monthlyEMI res = nan
    /\ Emi.totalPayment res = nan
    /\ Emi.totalInterest res = nan.
Proof.
  intros Hr Hn. unfold Emi.calculateEMI.
  change (@lit float (binary64 pow) 0) with 0.
  change (@num_le float (binary64 pow)) with PrimFloat.leb.
  change (@num_lt float (binary64 pow)) with PrimFloat.ltb.
  change (@num_eq float (binary64 pow)) with PrimFloat.eqb.
  change (@num_div float (binary64 pow)) with PrimFloat.div.
  change (@num_mul float (binary64 pow)) with PrimFloat.mul.
  change (@num_sub float (binary64 pow)) with PrimFloat.sub.
  change (nan <=? 0) with false.
  rewrite (float_lt_excludes_le Hn), (float_le_excludes_lt Hr).
  cbn [orb].
  eexists. split; [reflexivity|]. cbn [Emi.monthlyEMI Emi.totalPayment Emi.totalInterest].
  assert (M : (if r =? 0 then nan / n
               else nan * (r / @lit float (binary64 pow) 12
                           / @lit float (binary64 pow) 100)
                    * @Math_pow float (binary64 pow)
                        (@num_add float (binary64 pow)
                           (@lit float (binary64 pow) 1)
                           (r / @lit float (binary64 pow) 12
                            / @lit float (binary64 pow) 100)) n
                    / (@Math_pow float (binary64 pow)
                         (@num_add float (binary64 pow)
                            (@lit float (binary64 pow) 1)
                            (r / @lit float (binary64 pow) 12
                             / @lit float (binary64 pow) 100)) n
                       - @lit float (binary64 pow) 1)) = nan).
  { destruct (r =? 0).
    - apply nan_div.
    - rewrite nan_mul, nan_mul. apply nan_div. }
  rewrite M, nan_mul, nan_sub. auto.
Qed.
End NotANumber.

(** ** Concrete runs of the further properties *)

Section FurtherRuns.
Import History.

#[local] Abbreviation w0 := (Samples.surroundings 0).
#[local] Abbreviation w1 := (Samples.surroundings 1).
#[local] Abbreviation e0 := (newEntry Samples.fields (Samples.surroundings 0)).

(** An empty form is refused and nothing is logged. *)
Lemma handleCalculate_refused_witness :
  exists st',
    Component.handleCalculate Fixtures.parseFloat float_pow w0
      Component.initial Fixtures.saved
    = Returned (st', Fixtures.saved)
    /\ Component.result st' = None.
Proof.
  destruct (@handleCalculate_refused Fixtures.parseFloat float_pow w0
              Component.initial Fixtures.saved eq_refl)
    as (st' & E & R & _).
  exists st'. split; [exact E | exact R].
Defined.

(** 100000 at 8.5% over 20 years is accepted and logged. *)
Lemma handleCalculate_accepted_witness :
  exists emiResult st' log,
    Component.handleCalculate Fixtures.parseFloat float_pow w0
      Fixtures.filled []
    = Returned (st', log)
    /\ Component.result st' = Some emiResult
    /\ Emi.tenureMonths emiResult = 240%float.
Proof.
  destruct (@handleCalculate_accepted Fixtures.parseFloat float_pow w0
              Fixtures.filled [] eq_refl)
    as (res & st' & C & E & R & _).
  exists res, st'. eexists. split; [exact E|]. split; [exact R|].
  vm_compute in C. injection C as <-. reflexivity.
Defined.

Lemma load_after_calculate_witness :
  exists st1 log emiResult,
    Component.handleCalculate Fixtures.parseFloat float_pow w0
      Fixtures.filled []
    = Returned (st1, log)
    /\ Component.result st1 = Some emiResult
    /\ Component.handleLoadEntry float_pow Fixtures.Number_toString
         (new_id w0) Component.initial log
       = Some (Component.Completed
                 {| Component.principal := "100000";
                    Component.interestRate := "8.5";
                    Component.tenure := "240";
                    Component.tenureUnit := Form.months;
                    Component.result := Some emiResult;
                    Component.errors := Component.Errors.empty |}).
Proof.
  exact (@load_after_calculate Fixtures.parseFloat float_pow
           Fixtures.Number_toString w0 Fixtures.filled Component.initial []
           eq_refl).
Defined.

(** Loading the saved calculation into an empty form: 100000 at 0% over
    10 months is shown again. *)
Lemma handleLoadEntry_well_formed_witness :
  Component.handleLoadEntry float_pow Fixtures.Number_toString (new_id w0)
    Component.initial Fixtures.saved
  = Some (Component.Completed
            {| Component.principal := "100000";
               Component.interestRate := "0";
               Component.tenure := "10";
               Component.tenureUnit := Form.months;
               Component.result :=
                 Some {| Emi.monthlyEMI := 10000; Emi.totalPayment := 100000;
                         Emi.totalInterest := 0; Emi.principal := 100000;
                         Emi.tenureMonths := 10 |}%float;
               Component.errors := Component.Errors.empty |}).
Proof.
  destruct (@handleLoadEntry_well_formed float_pow Fixtures.Number_toString
              (new_id w0) Component.initial Fixtures.saved eq_refl)
    as [[N _] | (fields & p & r & n & G & _ & _ & P & R & T & L & _)].
  - exfalso. apply (N e0); [left|]; reflexivity.
  - vm_compute in G. injection G as <-.
    vm_compute in P, R, T.
    injection P as <-. injection R as <-. injection T as <-.
    rewrite L. reflexivity.
Defined.

Lemma getEntry_first_match_witness :
  exists newer older,
    Fixtures.saved = newer ++ e0 :: older
    /\ get_member e0 "id" = Returned (JString (new_id w0))
    /\ (forall u, In u newer ->
                  get_member u "id" <> Returned (JString (new_id w0))).
Proof.
  apply (@getEntry_first_match float (new_id w0) Fixtures.saved e0).
  - reflexivity.
  - discriminate.
Defined.

Lemma saved_has_no_null :
  forall u, In u Fixtures.saved -> u <> JNull /\ u <> JUndefined.
Proof. intros u [<- | []]. split; discriminate. Qed.

Lemma getEntry_total_witness :
  exists v,
    getEntry "1700000000001-4fzyo82mv" Fixtures.saved = Returned v
    /\ (v = JUndefined
        <-> forall u, In u Fixtures.saved ->
              get_member u "id"
              <> Returned (JString "1700000000001-4fzyo82mv")).
Proof.
  exact (@getEntry_total float "1700000000001-4fzyo82mv" Fixtures.saved
           saved_has_no_null).
Defined.

Lemma saved_has_other_id :
  forall u, In u Fixtures.saved ->
    exists x, get_member u "id" = Returned x
              /\ x <> JString "1700000000001-4fzyo82mv".
Proof.
  intros u [<- | []]. eexists. split; [reflexivity|].
  intros H. vm_compute in H. discriminate H.
Qed.

Lemma getEntry_throws_at_null_witness :
  getEntry "1700000000001-4fzyo82mv" (Fixtures.saved ++ JNull :: [])
  = Thrown TypeError.
Proof.
  exact (@getEntry_throws_at_null float "1700000000001-4fzyo82mv"
           Fixtures.saved [] saved_has_other_id).
Defined.

Lemma other_id : new_id w0 <> new_id w1 :> string.
Proof. intros H. vm_compute in H. discriminate H. Qed.

Lemma getEntry_after_addEntry_witness :
  getEntry (new_id w0) (snd (addEntry Samples.fields w1 Fixtures.saved))
  = getEntry (new_id w0) (firstn 49 Fixtures.saved)
  /\ (List.length Fixtures.saved <= 49 ->
      getEntry (new_id w0) (snd (addEntry Samples.fields w1 Fixtures.saved))
      = getEntry (new_id w0) Fixtures.saved).
Proof.
  exact (@getEntry_after_addEntry float (new_id w0) Samples.fields w1
           Fixtures.saved other_id).
Defined.

Lemma addAll_within_bound_witness :
  addAll Fixtures.saved (Samples.calls 3)
  = rev (map created (Samples.calls 3)) ++ Fixtures.saved.
Proof.
  apply (@addAll_within_bound float Fixtures.saved (Samples.calls 3)).
  vm_compute. lia.
Defined.

Lemma addEntry_evicts_oldest_witness :
  snd (addEntry Samples.fields w0 (addAll [] (Samples.calls 50)))
  = newEntry Samples.fields w0 :: removelast (addAll [] (Samples.calls 50)).
Proof.
  apply (@addEntry_evicts_oldest float Samples.fields w0
           (addAll [] (Samples.calls 50))).
  vm_compute. reflexivity.
Defined.

Lemma run_well_formed_witness :
  spec_well_formed_log
    (run Fixtures.saved [AddEntry Samples.fields w1; GetEntry "x"]) = true
  /\ forall id, exists v,
       getEntry id
         (run Fixtures.saved [AddEntry Samples.fields w1; GetEntry "x"])
       = Returned v.
Proof.
  exact (@run_well_formed float Fixtures.saved
           [AddEntry Samples.fields w1; GetEntry "x"] eq_refl).
Defined.

Lemma clock_text_has_no_dash (i : nat) :
  i < 2 ->
  forall c, In c (list_ascii_of_string (now_text (Samples.surroundings i))) ->
            c <> dash.
Proof.
  intros L c H.
  destruct i as [| [| i]]; [| |lia]; vm_compute in H;
    repeat (destruct H as [<- | H]; [discriminate|]); destruct H.
Qed.

Lemma new_id_distinct_witness : new_id w0 <> new_id w1 :> string.
Proof.
  apply (@new_id_distinct float w0 w1).
  - apply clock_text_has_no_dash. lia.
  - apply clock_text_has_no_dash. lia.
  - intros H. vm_compute in H. discriminate H.
Defined.

Lemma same_id_shadows_witness :
  new_id w0 = new_id w0
  /\ getEntry (new_id w0)
       (snd (addEntry Fixtures.other_fields w0
               (snd (addEntry Samples.fields w0 []))))
     = Returned (newEntry Fixtures.other_fields w0).
Proof.
  exact (@same_id_shadows float Samples.fields Fixtures.other_fields w0 w0 []
           eq_refl eq_refl).
Defined.

#[local] Abbreviation once :=
  (Persistence.session Fixtures.JSON_parse Fixtures.JSON_stringify
     Fixtures.setItem_accepts None [Persistence.Add Samples.fields w0]).

(** One calculation in a first visit is there again at the next mount. *)
Lemma session_stored_and_reloaded_witness :
  Persistence.item once = Some "saved"%string
  /\ Persistence.history
       (Persistence.mount Fixtures.JSON_parse Fixtures.JSON_stringify
          Fixtures.setItem_accepts (Persistence.item once))
     = Persistence.history once.
Proof.
  destruct (@session_stored_and_reloaded float Fixtures.JSON_parse
              Fixtures.JSON_stringify Fixtures.setItem_accepts None
              [Persistence.Add Samples.fields w0] eq_refl) as [I R].
  split; [exact I|]. apply R.
  - discriminate.
  - reflexivity.
Defined.

Lemma clearHistory_rewrites_item_witness :
  Persistence.history
    (Persistence.perform Fixtures.JSON_stringify Fixtures.setItem_accepts
       once Persistence.Clear) = []
  /\ Persistence.item
       (Persistence.perform Fixtures.JSON_stringify Fixtures.setItem_accepts
          once Persistence.Clear)
     = Some "saved"%string.
Proof.
  exact (@clearHistory_rewrites_item float Fixtures.JSON_stringify
           Fixtures.setItem_accepts once eq_refl).
Defined.

Lemma mount_replaces_corrupt_item_witness :
  Persistence.mount Fixtures.JSON_parse Fixtures.JSON_stringify
    Fixtures.setItem_accepts (Some "{entries"%string)
  = {| Persistence.history := [];
       Persistence.isLoading := false;
       Persistence.item := Some "saved"%string |}.
Proof.
  exact (@mount_replaces_corrupt_item float Fixtures.JSON_parse
           Fixtures.JSON_stringify Fixtures.setItem_accepts "{entries"
           SyntaxError eq_refl eq_refl).
Defined.

Lemma nan_principal_not_rejected_witness :
  exists res,
    Emi.calculateEMI (binary64 float_pow) nan 8.5%float 240%float
    = Returned res
    /\ Emi.monthlyEMI res = nan
    /\ Emi.totalPayment res = nan
    /\ Emi.totalInterest res = nan.
Proof.
  apply (@nan_principal_not_rejected float_pow 8.5%float 240%float);
    reflexivity.
Defined.
End FurtherRuns.
